(** * qbit-mover-manage: pausing and resuming torrents around the mover

    A shallow embedding of [scripts/qbit-mover-manage.py] and the
    properties of its selection, state-file and reconciliation logic. *)

From Stdlib Require Import Ascii String QArith Sorted.
From stdpp Require Import gmap strings list fin_maps pretty.

Local Open Scope string_scope.
Local Open Scope Z_scope.

(** ** Torrent records

    The fields of [TorrentDictionary] the script reads.  [added_on] is an
    integer number of seconds since the epoch. *)

Record torrent := {
  hash : string;
  name : string;
  content_path : string;
  added_on : Z
}.

(** ** Exceptions

    An exception is its Python class together with its message. *)

Inductive exn_class :=
  | ValueError | TypeError | KeyError | RuntimeError
  | OSError | FileNotFoundError | PermissionError | IsADirectoryError
  | JSONDecodeError | LoginFailed | APIConnectionError | OtherException.

Record exn := Exn { exn_kind : exn_class; exn_msg : string }.

(** [isinstance(e, OSError)]; [IOError] is the same class. *)
Definition is_OSError (c : exn_class) : bool :=
  match c with
  | OSError | FileNotFoundError | PermissionError | IsADirectoryError => true
  | _ => false
  end.

Inductive outcome (A : Type) :=
  | Ok (a : A)
  | Raise (e : exn).
Arguments Ok {A} a.
Arguments Raise {A} e.

(** ** The world the script runs in *)

(** What resolving a path string yields.  [Inaccessible] stands for a path
    that cannot be examined (a parent directory without search
    permission): every call on it fails with [PermissionError]. *)
Inductive node :=
  | File (content : string)
  | Dir (writable : bool)
  | Inaccessible.

Abbreviation filesystem := (gmap string node).

(** The values of [--status-filter]. *)
Inductive status :=
  | st_all | st_downloading | st_seeding | st_completed | st_paused
  | st_stopped | st_active | st_inactive | st_resumed | st_running
  | st_stalled | st_stalled_uploading | st_stalled_downloading
  | st_checking | st_moving | st_errored.

(** The qBittorrent server as the script sees it: what constructing
    [Client] does, what [torrents.info] answers ([None]: no status filter;
    [Some s]: that filter, sorted by [added_on], reversed), and which
    torrents refuse [pause()] or [resume()]. *)
Record qbit := {
  connect_error : option exn;
  torrents_info : option status -> outcome (list torrent);
  pause_error : string -> option exn;
  resume_error : string -> option exn
}.

(** [(datetime.now() - timedelta(days=d)).timestamp()] and
    [datetime.now().isoformat()]. *)
Record clock := {
  timestamp_days_ago : Z -> Q;
  now_isoformat : string
}.

(** Every call that leaves the process, in the order it is made. *)
Inductive event :=
  | Connect (host username password : string)
  | TorrentsInfo (status_filter : option status)
  | PauseCall (h : string)
  | ResumeCall (h : string)
  | Stat (path : string)
  | Access (path : string)
  | OpenRead (path : string)
  | OpenWrite (path : string)
  | Remove (path : string).

Record world := {
  fs : filesystem;
  server : qbit;
  time : clock;
  paused : gset string;
  trace : list event
}.

(** ** Programs: state passing with exceptions

    The world is threaded through every call and survives a raised
    exception. *)

Definition prog (A : Type) : Type := world -> outcome A * world.

Definition ret {A} (a : A) : prog A := fun w => (Ok a, w).

Definition raise {A} (c : exn_class) (msg : string) : prog A :=
  fun w => (Raise (Exn c msg), w).

Definition reraise {A} (e : exn) : prog A := fun w => (Raise e, w).

Definition bind {A B} (m : prog A) (k : A -> prog B) : prog B :=
  fun w =>
    match m w with
    | (Ok a, w') => k a w'
    | (Raise e, w') => (Raise e, w')
    end.

Notation "x <- m ;; k" := (bind m (fun x => k))
  (at level 100, m at next level, right associativity).
Notation "m ;;; k" := (bind m (fun _ => k))
  (at level 100, right associativity).

(** [try: m except ...: handler] with [handler] deciding per exception;
    a handler that does not catch re-raises. *)
Definition try_except {A} (m : prog A) (handler : exn -> prog A) : prog A :=
  fun w =>
    match m w with
    | (Ok a, w') => (Ok a, w')
    | (Raise e, w') => handler e w'
    end.

Definition lift {A} (o : outcome A) : prog A := fun w => (o, w).

(** Updates of one component of the world. *)
Definition add_events (w : world) (evs : list event) : world :=
  {| fs := fs w; server := server w; time := time w; paused := paused w;
     trace := trace w ++ evs |}.

Definition with_fs (w : world) (f : filesystem) : world :=
  {| fs := f; server := server w; time := time w; paused := paused w;
     trace := trace w |}.

Definition with_paused (w : world) (p : gset string) : world :=
  {| fs := fs w; server := server w; time := time w; paused := p;
     trace := trace w |}.

Definition emit (ev : event) : prog unit :=
  fun w => (Ok tt, add_events w [ev]).

Definition set_fs (f : filesystem) : prog unit :=
  fun w => (Ok tt, with_fs w f).

Definition set_paused (p : gset string) : prog unit :=
  fun w => (Ok tt, with_paused w p).

Definition get_world : prog world := fun w => (Ok w, w).

(** ** Filesystem calls *)

(** [os.stat]: raises for a missing or unreachable path. *)
Definition os_stat (path : string) : prog node :=
  emit (Stat path) ;;;
  w <- get_world ;;
  match fs w !! path with
  | None => raise FileNotFoundError path
  | Some Inaccessible => raise PermissionError path
  | Some n => ret n
  end.

(** [os.path.exists]:
    [try: os.stat(path) except (OSError, ValueError): return False]
    and [True] otherwise. *)
Definition os_path_exists (path : string) : prog bool :=
  try_except (os_stat path ;;; ret true)
    (fun e =>
       match exn_kind e with
       | ValueError => ret false
       | c => if is_OSError c then ret false else reraise e
       end).

(** [os.access(path, os.W_OK)]; it never raises. *)
Definition os_access_W_OK (path : string) : prog bool :=
  emit (Access path) ;;;
  w <- get_world ;;
  ret match fs w !! path with
      | Some (Dir writable) => writable
      | Some (File _) => true
      | _ => false
      end.

(** [with open(path, 'r') as f: f.read()] *)
Definition open_read (path : string) : prog string :=
  emit (OpenRead path) ;;;
  w <- get_world ;;
  match fs w !! path with
  | None => raise FileNotFoundError path
  | Some (File content) => ret content
  | Some (Dir _) => raise IsADirectoryError path
  | Some Inaccessible => raise PermissionError path
  end.

(** [with open(path, 'w') as f: f.write(content)]: creates or truncates. *)
Definition open_write (path content : string) : prog unit :=
  emit (OpenWrite path) ;;;
  w <- get_world ;;
  match fs w !! path with
  | Some (Dir _) => raise IsADirectoryError path
  | Some Inaccessible => raise PermissionError path
  | _ => set_fs (<[path := File content]> (fs w))
  end.

(** [os.remove(path)] *)
Definition os_remove (path : string) : prog unit :=
  emit (Remove path) ;;;
  w <- get_world ;;
  match fs w !! path with
  | None => raise FileNotFoundError path
  | Some (File _) => set_fs (delete path (fs w))
  | Some (Dir _) => raise IsADirectoryError path
  | Some Inaccessible => raise PermissionError path
  end.

(** ** Path strings *)

(** [s.lstrip("/")] *)
Fixpoint lstrip_slash (s : string) : string :=
  match s with
  | String "/"%char rest => lstrip_slash rest
  | _ => s
  end.

Definition starts_with_slash (s : string) : bool :=
  match s with
  | String "/"%char _ => true
  | _ => false
  end.

Fixpoint ends_with_slash (s : string) : bool :=
  match s with
  | EmptyString => false
  | String c EmptyString => Ascii.eqb c "/"%char
  | String _ rest => ends_with_slash rest
  end.

(** [os.path.join(a, b)] of [posixpath], for two components. *)
Definition os_path_join (a b : string) : string :=
  if starts_with_slash b then b
  else if String.eqb a "" || ends_with_slash a then a ++ b
  else a ++ "/" ++ b.

(** ** Selection *)

Definition exists_in_cache (cache_mount content_path : string) : prog bool :=
  let cache_path := os_path_join cache_mount (lstrip_slash content_path) in
  os_path_exists cache_path.

(** Comparison of the integer [added_on] with a float bound: exact, as
    Python compares [int] and [float] by value. *)
Definition Qlt_bool (x y : Q) : bool := negb (Qle_bool y x).

(** [timeoffset_to <= torrent.added_on <= timeoffset_from] *)
Definition in_window (timeoffset_from timeoffset_to : Q) (t : torrent) : bool :=
  Qle_bool timeoffset_to (inject_Z (added_on t))
  && Qle_bool (inject_Z (added_on t)) timeoffset_from.

(** [torrent.added_on < timeoffset_to] *)
Definition older (timeoffset_to : Q) (t : torrent) : bool :=
  Qlt_bool (inject_Z (added_on t)) timeoffset_to.

(** [not cache_mount or exists_in_cache(cache_mount, path)].  [None] and
    the empty string are false as truth values, and the right operand is
    evaluated only when the left one is false. *)
Definition cache_test (cache_mount : option string) (path : string)
  : prog bool :=
  match cache_mount with
  | None => ret true
  | Some m => if String.eqb m "" then ret true else exists_in_cache m path
  end.

(** The loop of [filter_torrents] over the rest of [torrent_list], with
    [result] the list built so far; [break] returns it. *)
Fixpoint filter_loop (timeoffset_from timeoffset_to : Q)
    (cache_mount : option string) (torrent_list result : list torrent)
  : prog (list torrent) :=
  match torrent_list with
  | [] => ret result
  | torrent :: rest =>
      if in_window timeoffset_from timeoffset_to torrent then
        keep <- cache_test cache_mount (content_path torrent) ;;
        if keep
        then filter_loop timeoffset_from timeoffset_to cache_mount rest
               (result ++ [torrent])
        else filter_loop timeoffset_from timeoffset_to cache_mount rest result
      else if older timeoffset_to torrent then ret result
      else filter_loop timeoffset_from timeoffset_to cache_mount rest result
  end.

Definition filter_torrents (torrent_list : list torrent)
    (timeoffset_from timeoffset_to : Q) (cache_mount : option string)
  : prog (list torrent) :=
  filter_loop timeoffset_from timeoffset_to cache_mount torrent_list [].

(** ** JSON values and the Python operations the script applies to them *)

#[local] Set Warnings "-register-all".

Inductive json :=
  | JNull
  | JBool (b : bool)
  | JNum (n : Z)
  | JStr (s : string)
  | JArr (items : list json)
  | JObj (members : list (string * json)).

(** [sub in s] for two strings: substring test. *)
Fixpoint str_contains (sub s : string) : bool :=
  String.prefix sub s
  || match s with
     | EmptyString => false
     | String _ rest => str_contains sub rest
     end.

(** [key == v] for a string [key]: only an equal string is equal. *)
Definition str_eq_json (key : string) (v : json) : bool :=
  match v with
  | JStr s => String.eqb key s
  | _ => false
  end.

(** [key in container] for a string [key]: key membership for a dict,
    element membership for a list, substring test for a string, and
    [TypeError] for what is not a container. *)
Definition py_in (key : string) (container : json) : outcome bool :=
  match container with
  | JObj members => Ok (existsb (fun kv => String.eqb key (fst kv)) members)
  | JArr items => Ok (existsb (str_eq_json key) items)
  | JStr s => Ok (str_contains key s)
  | _ => Raise (Exn TypeError "argument is not iterable")
  end.

(** A dict keeps the last value given for a key. *)
Definition dict_get (members : list (string * json)) (key : string)
  : option json :=
  fold_left (fun found kv => if String.eqb key (fst kv) then Some (snd kv) else found)
    members None.

(** [container[key]] for a string [key]. *)
Definition py_getitem (container : json) (key : string) : outcome json :=
  match container with
  | JObj members =>
      match dict_get members key with
      | Some v => Ok v
      | None => Raise (Exn KeyError key)
      end
  | JArr _ | JStr _ => Raise (Exn TypeError "indices must be integers")
  | _ => Raise (Exn TypeError "object is not subscriptable")
  end.

(** [all(key in state for key in keys)]: stops at the first false test. *)
Fixpoint all_in (keys : list string) (state : json) : outcome bool :=
  match keys with
  | [] => Ok true
  | key :: rest =>
      match py_in key state with
      | Ok true => all_in rest state
      | Ok false => Ok false
      | Raise e => Raise e
      end
  end.

(** ** Path of the state directory *)

(** [p[:p.rfind('/') + 1]] *)
Fixpoint upto_last_slash (p : string) : string :=
  match p with
  | EmptyString => EmptyString
  | String c rest =>
      match upto_last_slash rest with
      | EmptyString => if Ascii.eqb c "/"%char then "/" else ""
      | head => String c head
      end
  end.

Fixpoint all_slashes (s : string) : bool :=
  match s with
  | EmptyString => true
  | String c rest => Ascii.eqb c "/"%char && all_slashes rest
  end.

(** [s.rstrip('/')] *)
Fixpoint rstrip_slash (s : string) : string :=
  match s with
  | EmptyString => EmptyString
  | String c rest =>
      match rstrip_slash rest with
      | EmptyString => if Ascii.eqb c "/"%char then "" else String c ""
      | rest' => String c rest'
      end
  end.

(** [os.path.dirname] of [posixpath]. *)
Definition os_path_dirname (p : string) : string :=
  let head := upto_last_slash p in
  if negb (String.eqb head "") && negb (all_slashes head)
  then rstrip_slash head
  else head.

(** ** The command line *)

Inductive action_choice := pause | resume.

(** What was written on the command line: an optional argument is [None]
    when it was not given. *)
Record command_line := {
  cl_action : action_choice;
  cl_host : string;
  cl_user : option string;
  cl_password : option string;
  cl_cache_mount : option string;
  cl_days_from : option Z;
  cl_days_to : option Z;
  cl_status_filter : option status;
  cl_state_file : option string;
  cl_verbose : bool
}.

(** The namespace [parse_args] returns. *)
Record namespace := {
  action : action_choice;
  host : string;
  user : string;
  password : string;
  cache_mount : option string;
  days_from : Z;
  days_to : Z;
  status_filter : status;
  state_file : string;
  verbose : bool
}.

(** An argument that was not given takes its [default=]. *)
Definition parse_args (cl : command_line) : namespace := {|
  action := cl_action cl;
  host := cl_host cl;
  user := default "admin" (cl_user cl);
  password := default "adminadmin" (cl_password cl);
  cache_mount := cl_cache_mount cl;
  days_from := default 0 (cl_days_from cl);
  days_to := default 2 (cl_days_to cl);
  status_filter := default st_completed (cl_status_filter cl);
  state_file := default "./qbit_mover_state.json" (cl_state_file cl);
  verbose := cl_verbose cl
|}.

Definition status_name (s : status) : string :=
  match s with
  | st_all => "all" | st_downloading => "downloading"
  | st_seeding => "seeding" | st_completed => "completed"
  | st_paused => "paused" | st_stopped => "stopped"
  | st_active => "active" | st_inactive => "inactive"
  | st_resumed => "resumed" | st_running => "running"
  | st_stalled => "stalled" | st_stalled_uploading => "stalled_uploading"
  | st_stalled_downloading => "stalled_downloading"
  | st_checking => "checking" | st_moving => "moving"
  | st_errored => "errored"
  end.

(** The values attributes of the namespace take. *)
Inductive pyval :=
  | PNone
  | PInt (n : Z)
  | PStr (s : string).

Definition pyval_eqb (a b : pyval) : bool :=
  match a, b with
  | PNone, PNone => true
  | PInt n, PInt m => Z.eqb n m
  | PStr s, PStr t => String.eqb s t
  | _, _ => false
  end.

Definition of_opt_str (o : option string) : pyval :=
  match o with
  | None => PNone
  | Some s => PStr s
  end.

(** [getattr(args, p)] for the pause-only parameters. *)
Definition getattr (args : namespace) (p : string) : pyval :=
  if String.eqb p "cache_mount" then of_opt_str (cache_mount args)
  else if String.eqb p "days_from" then PInt (days_from args)
  else if String.eqb p "days_to" then PInt (days_to args)
  else if String.eqb p "status_filter" then PStr (status_name (status_filter args))
  else PNone.

(** [parser.get_default(p)] for the pause-only parameters. *)
Definition get_default (p : string) : pyval :=
  if String.eqb p "cache_mount" then PNone
  else if String.eqb p "days_from" then PInt 0
  else if String.eqb p "days_to" then PInt 2
  else if String.eqb p "status_filter" then PStr "completed"
  else PNone.

Definition pause_params : list string :=
  ["cache_mount"; "days_from"; "days_to"; "status_filter"].

Definition provided_params (args : namespace) : list string :=
  List.filter (fun p => negb (pyval_eqb (getattr args p) (get_default p)))
    pause_params.

Definition validate_args (args : namespace) : prog unit :=
  match action args with
  | resume =>
      match provided_params args with
      | [] => ret tt
      | provided =>
          raise ValueError
            ("The following parameters are not valid with 'resume' action: "
             ++ String.concat ", " provided)
      end
  | pause => ret tt
  end.

(** ** The script *)

Section Script.

(** The [json] module: [json_dumps state] is the text
    [json.dump(state, f, indent=2)] writes, and [json_loads text] is what
    [json.load] returns for a file holding [text], [None] when it raises
    [JSONDecodeError].  [os_path_abspath] depends on the working
    directory. *)
Variable json_dumps : json -> string.
Variable json_loads : string -> option json.
Variable os_path_abspath : string -> string.

(** The state written by [save_torrent_state]. *)
Definition state_of (torrents : list torrent) (timestamp : string) : json :=
  JObj [("torrent_hashes", JArr (map (fun t => JStr (hash t)) torrents));
        ("timestamp", JStr timestamp);
        ("version", JStr "1.0")].

Definition save_torrent_state (torrents : list torrent) (state_file : string)
  : prog unit :=
  w <- get_world ;;
  let state := state_of torrents (now_isoformat (time w)) in
  try_except
    (let state_dir := os_path_dirname (os_path_abspath state_file) in
     dir_exists <- os_path_exists state_dir ;;
     (if negb dir_exists
      then raise OSError ("Directory does not exist: " ++ state_dir)
      else ret tt) ;;;
     dir_writable <- os_access_W_OK state_dir ;;
     (if negb dir_writable
      then raise OSError ("Directory is not writable: " ++ state_dir)
      else ret tt) ;;;
     open_write state_file (json_dumps state))
    (fun e =>
       if is_OSError (exn_kind e)
       then raise RuntimeError ("Failed to save state file: " ++ exn_msg e)
       else reraise e).

Definition required_keys : list string := ["torrent_hashes"; "timestamp"].

Definition load_torrent_state (state_file : string) : prog json :=
  try_except
    (text <- open_read state_file ;;
     state <- match json_loads text with
              | Some v => ret v
              | None => raise JSONDecodeError "Expecting value"
              end ;;
     present <- lift (all_in required_keys state) ;;
     (if negb present
      then raise ValueError "State file is missing required fields"
      else ret tt) ;;;
     ret state)
    (fun e =>
       match exn_kind e with
       | FileNotFoundError =>
           raise RuntimeError
             ("No state file found at " ++ state_file
              ++ ". Did you run with 'pause' first?")
       | JSONDecodeError =>
           raise RuntimeError ("State file " ++ state_file ++ " is corrupted")
       | c =>
           if is_OSError c
           then raise RuntimeError ("Failed to read state file: " ++ exn_msg e)
           else reraise e
       end).

(** [torrent.pause()] and [torrent.resume()] *)
Definition torrent_pause (t : torrent) : prog unit :=
  emit (PauseCall (hash t)) ;;;
  w <- get_world ;;
  match pause_error (server w) (hash t) with
  | Some e => reraise e
  | None => set_paused ({[hash t]} ∪ paused w)
  end.

Definition torrent_resume (t : torrent) : prog unit :=
  emit (ResumeCall (hash t)) ;;;
  w <- get_world ;;
  match resume_error (server w) (hash t) with
  | Some e => reraise e
  | None => set_paused (paused w ∖ {[hash t]})
  end.

(** The log line of each step is not part of the model. *)
Fixpoint manage_torrents (torrent_list : list torrent) (pause : bool)
  : prog unit :=
  match torrent_list with
  | [] => ret tt
  | torrent :: rest =>
      (if pause then torrent_pause torrent else torrent_resume torrent) ;;;
      manage_torrents rest pause
  end.

(** [Client(host=..., username=..., password=...)] *)
Definition Client (host username password : string) : prog unit :=
  emit (Connect host username password) ;;;
  w <- get_world ;;
  match connect_error (server w) with
  | Some e => reraise e
  | None => ret tt
  end.

(** [client.torrents.info(...)] *)
Definition client_torrents_info (status_filter : option status)
  : prog (list torrent) :=
  emit (TorrentsInfo status_filter) ;;;
  w <- get_world ;;
  lift (torrents_info (server w) status_filter).

(** [[t for t in snapshot if t.hash in saved_state['torrent_hashes']]] *)
Fixpoint saved_torrents (saved_state : json) (snapshot : list torrent)
  : prog (list torrent) :=
  match snapshot with
  | [] => ret []
  | t :: rest =>
      hashes <- lift (py_getitem saved_state "torrent_hashes") ;;
      found <- lift (py_in (hash t) hashes) ;;
      others <- saved_torrents saved_state rest ;;
      ret (if found then t :: others else others)
  end.

Definition pause_action (args : namespace) : prog unit :=
  (if days_from args >? days_to args
   then raise ValueError "Config Error: days_from must be set lower than days_to"
   else ret tt) ;;;
  try_except (Client (host args) (user args) (password args))
    (fun e =>
       match exn_kind e with
       | LoginFailed =>
           raise RuntimeError
             "qBittorrent Error: Failed to login. Invalid username/password."
       | APIConnectionError =>
           raise RuntimeError
             "qBittorrent Error: Unable to connect to the client."
       | _ =>
           raise RuntimeError
             ("qBittorrent Error: Unable to connect to the client. "
              ++ exn_msg e)
       end) ;;;
  w <- get_world ;;
  let timeoffset_from := timestamp_days_ago (time w) (days_from args) in
  let timeoffset_to := timestamp_days_ago (time w) (days_to args) in
  torrent_list <- client_torrents_info (Some (status_filter args)) ;;
  torrents <- filter_torrents torrent_list timeoffset_from timeoffset_to
                (cache_mount args) ;;
  match torrents with
  | [] => ret tt
  | _ =>
      manage_torrents torrents true ;;;
      save_torrent_state torrents (state_file args)
  end.

Definition resume_action (args : namespace) : prog unit :=
  saved_state <- load_torrent_state (state_file args) ;;
  try_except (Client (host args) (user args) (password args))
    (fun e =>
       raise RuntimeError ("Failed to connect to qBittorrent: " ++ exn_msg e)) ;;;
  snapshot <- client_torrents_info None ;;
  torrents <- saved_torrents saved_state snapshot ;;
  match torrents with
  | [] => ret tt
  | _ => manage_torrents torrents false
  end ;;;
  try_except (os_remove (state_file args))
    (fun e => if is_OSError (exn_kind e) then ret tt else reraise e).

(** The body of the [try] of [main]. *)
Definition main_try (args : namespace) : prog unit :=
  validate_args args ;;;
  (if action args is pause then pause_action args else ret tt) ;;;
  (if action args is resume then resume_action args else ret tt).

(** [main]: the exit code, [0] when the body returns and [1] when it
    raises. *)
Definition main (cl : command_line) (w : world) : Z * world :=
  match main_try (parse_args cl) w with
  | (Ok _, w') => (0, w')
  | (Raise _, w') => (1, w')
  end.

End Script.

(** ** A JSON text codec

    An executable instance of the [json] module for the values above:
    the layout of [json.dump(..., indent=2)] and a parser for JSON texts
    whose numbers are integers and whose characters are below 256. *)

Module JsonText.

Definition dquote : ascii := ascii_of_N 34.

Definition hex_digit (n : N) : ascii :=
  match String.get (N.to_nat n) "0123456789abcdef" with
  | Some c => c
  | None => "0"%char
  end.

(** One character of a string literal, escaped as [ensure_ascii] does. *)
Definition escape_char (c : ascii) : string :=
  if Ascii.eqb c dquote then String "\"%char (String dquote "")
  else if Ascii.eqb c "\"%char then "\\"
  else if Ascii.eqb c "010"%char then "\n"
  else if Ascii.eqb c "013"%char then "\r"
  else if Ascii.eqb c "009"%char then "\t"
  else if Ascii.eqb c "008"%char then "\b"
  else if Ascii.eqb c "012"%char then "\f"
  else
    let n := N_of_ascii c in
    if ((32 <=? n) && (n <=? 126))%N then String c ""
    else "\u00" ++ String (hex_digit (n / 16)%N) (String (hex_digit (n mod 16)%N) "").

Fixpoint escape (s : string) : string :=
  match s with
  | EmptyString => ""
  | String c rest => escape_char c ++ escape rest
  end.

Definition quote (s : string) : string :=
  String dquote (escape s ++ String dquote "").

Fixpoint spaces (n : nat) : string :=
  match n with
  | O => ""
  | S n => String " "%char (spaces n)
  end.

Definition newline (level : nat) : string :=
  String "010"%char (spaces (2 * level)).

Fixpoint dumps_at (level : nat) (v : json) : string :=
  match v with
  | JNull => "null"
  | JBool true => "true"
  | JBool false => "false"
  | JNum n => pretty n
  | JStr s => quote s
  | JArr [] => "[]"
  | JArr items =>
      "[" ++ newline (S level)
      ++ String.concat ("," ++ newline (S level)) (map (dumps_at (S level)) items)
      ++ newline level ++ "]"
  | JObj [] => "{}"
  | JObj members =>
      "{" ++ newline (S level)
      ++ String.concat ("," ++ newline (S level))
           (map (fun kv => quote (fst kv) ++ ": " ++ dumps_at (S level) (snd kv))
              members)
      ++ newline level ++ "}"
  end.

Definition dumps (v : json) : string := dumps_at 0 v.

Definition is_ws (c : ascii) : bool :=
  Ascii.eqb c " "%char || Ascii.eqb c "009"%char
  || Ascii.eqb c "010"%char || Ascii.eqb c "013"%char.

Fixpoint skip_ws (s : string) : string :=
  match s with
  | String c rest => if is_ws c then skip_ws rest else s
  | EmptyString => s
  end.

Definition hex_value (c : ascii) : option N :=
  let n := N_of_ascii c in
  if ((48 <=? n) && (n <=? 57))%N then Some (n - 48)%N
  else if ((97 <=? n) && (n <=? 102))%N then Some (n - 87)%N
  else if ((65 <=? n) && (n <=? 70))%N then Some (n - 55)%N
  else None.

(** The four hex digits after [\u]; code points from 256 on have no
    character here. *)
Definition parse_u4 (s : string) : option (ascii * string) :=
  match s with
  | String a (String b (String c (String d rest))) =>
      match hex_value a, hex_value b, hex_value c, hex_value d with
      | Some 0%N, Some 0%N, Some h, Some l =>
          Some (ascii_of_N (16 * h + l), rest)
      | _, _, _, _ => None
      end
  | _ => None
  end.

(** The rest of a string literal after its opening quote. *)
Fixpoint parse_string (fuel : nat) (s : string) : option (string * string) :=
  match fuel with
  | O => None
  | S fuel =>
      match s with
      | EmptyString => None
      | String c rest =>
          if Ascii.eqb c dquote then Some (EmptyString, rest)
          else if Ascii.eqb c "\"%char then
            match rest with
            | EmptyString => None
            | String e rest' =>
                let continue_with (ch : ascii) (r : string) :=
                  match parse_string fuel r with
                  | Some (str, r') => Some (String ch str, r')
                  | None => None
                  end in
                if Ascii.eqb e dquote then continue_with dquote rest'
                else if Ascii.eqb e "\"%char then continue_with "\"%char rest'
                else if Ascii.eqb e "/"%char then continue_with "/"%char rest'
                else if Ascii.eqb e "b"%char then continue_with "008"%char rest'
                else if Ascii.eqb e "f"%char then continue_with "012"%char rest'
                else if Ascii.eqb e "n"%char then continue_with "010"%char rest'
                else if Ascii.eqb e "r"%char then continue_with "013"%char rest'
                else if Ascii.eqb e "t"%char then continue_with "009"%char rest'
                else if Ascii.eqb e "u"%char then
                  match parse_u4 rest' with
                  | Some (ch, r) => continue_with ch r
                  | None => None
                  end
                else None
            end
          else if (N_of_ascii c <? 32)%N then None
          else
            match parse_string fuel rest with
            | Some (str, r') => Some (String c str, r')
            | None => None
            end
      end
  end.

Definition digit_value (c : ascii) : option Z :=
  let n := N_of_ascii c in
  if ((48 <=? n) && (n <=? 57))%N then Some (Z.of_N (n - 48)) else None.

Fixpoint parse_digits (acc : Z) (s : string) : Z * string :=
  match s with
  | String c rest =>
      match digit_value c with
      | Some d => parse_digits (10 * acc + d) rest
      | None => (acc, s)
      end
  | EmptyString => (acc, s)
  end.

(** An integer literal; a fraction or an exponent is not accepted. *)
Definition parse_nat_literal (s : string) : option (Z * string) :=
  match s with
  | String c rest =>
      match digit_value c with
      | Some 0 => Some (0, rest)
      | Some d => Some (parse_digits d rest)
      | None => None
      end
  | EmptyString => None
  end.

Definition no_fraction (s : string) : bool :=
  match s with
  | String c _ =>
      negb (Ascii.eqb c "."%char || Ascii.eqb c "e"%char || Ascii.eqb c "E"%char)
  | EmptyString => true
  end.

Definition parse_number (s : string) : option (Z * string) :=
  let '(sign, digits) :=
    match s with
    | String "-"%char rest => (-1, rest)
    | _ => (1, s)
    end in
  match parse_nat_literal digits with
  | Some (n, rest) => if no_fraction rest then Some (sign * n, rest) else None
  | None => None
  end.

(** [s] without its prefix [word]. *)
Fixpoint strip_prefix (word s : string) : option string :=
  match word with
  | EmptyString => Some s
  | String c word' =>
      match s with
      | String d s' => if Ascii.eqb c d then strip_prefix word' s' else None
      | EmptyString => None
      end
  end.

Definition expect (word : string) (v : json) (s : string)
  : option (json * string) :=
  match strip_prefix word s with
  | Some rest => Some (v, rest)
  | None => None
  end.

(** [s] after its first character, when that is [c]. *)
Definition head_is (c : ascii) (s : string) : option string :=
  match s with
  | String d rest => if Ascii.eqb d c then Some rest else None
  | EmptyString => None
  end.

Fixpoint parse_value (fuel : nat) (s : string) : option (json * string) :=
  match fuel with
  | O => None
  | S fuel =>
      match s with
      | EmptyString => None
      | String c rest =>
          if Ascii.eqb c "n"%char then expect "null" JNull s
          else if Ascii.eqb c "t"%char then expect "true" (JBool true) s
          else if Ascii.eqb c "f"%char then expect "false" (JBool false) s
          else if Ascii.eqb c dquote then
            match parse_string (String.length s) rest with
            | Some (str, r) => Some (JStr str, r)
            | None => None
            end
          else if Ascii.eqb c "["%char then
            match head_is "]"%char (skip_ws rest) with
            | Some r => Some (JArr [], r)
            | None =>
                match parse_items fuel (skip_ws rest) with
                | Some (items, r) => Some (JArr items, r)
                | None => None
                end
            end
          else if Ascii.eqb c "{"%char then
            match head_is "}"%char (skip_ws rest) with
            | Some r => Some (JObj [], r)
            | None =>
                match parse_members fuel (skip_ws rest) with
                | Some (members, r) => Some (JObj members, r)
                | None => None
                end
            end
          else
            match parse_number s with
            | Some (n, r) => Some (JNum n, r)
            | None => None
            end
      end
  end

(** The items of a non-empty array, up to and including its bracket. *)
with parse_items (fuel : nat) (s : string) : option (list json * string) :=
  match fuel with
  | O => None
  | S fuel =>
      match parse_value fuel s with
      | Some (v, r) =>
          match head_is "]"%char (skip_ws r) with
          | Some r' => Some ([v], r')
          | None =>
              match head_is ","%char (skip_ws r) with
              | Some r' =>
                  match parse_items fuel (skip_ws r') with
                  | Some (items, r'') => Some (v :: items, r'')
                  | None => None
                  end
              | None => None
              end
          end
      | None => None
      end
  end

(** The members of a non-empty object, up to and including its brace. *)
with parse_members (fuel : nat) (s : string)
  : option (list (string * json) * string) :=
  match fuel with
  | O => None
  | S fuel =>
      match head_is dquote s with
      | Some rest =>
          match parse_string (String.length s) rest with
          | Some (key, r) =>
              match head_is ":"%char (skip_ws r) with
              | Some r1 =>
                  match parse_value fuel (skip_ws r1) with
                  | Some (v, r2) =>
                      match head_is "}"%char (skip_ws r2) with
                      | Some r3 => Some ([(key, v)], r3)
                      | None =>
                          match head_is ","%char (skip_ws r2) with
                          | Some r3 =>
                              match parse_members fuel (skip_ws r3) with
                              | Some (members, r4) =>
                                  Some ((key, v) :: members, r4)
                              | None => None
                              end
                          | None => None
                          end
                      end
                  | None => None
                  end
              | None => None
              end
          | None => None
          end
      | None => None
      end
  end.

(** [json.loads]: one value, surrounded by whitespace only. *)
Definition loads (text : string) : option json :=
  match parse_value (S (String.length text)) (skip_ws text) with
  | Some (v, rest) =>
      match skip_ws rest with
      | EmptyString => Some v
      | _ => None
      end
  | None => None
  end.

(** Where a value may start: not at whitespace nor at a closing bracket
    or brace. *)
Definition starts_value (s : string) : bool :=
  match s with
  | String c _ =>
      negb (is_ws c) && negb (Ascii.eqb c "]"%char)
      && negb (Ascii.eqb c "}"%char)
  | EmptyString => false
  end.

(** Values without numbers, and a bound on the recursion depth their
    parsing needs. *)
Fixpoint no_numbers (v : json) : bool :=
  match v with
  | JNum _ => false
  | JArr items => forallb no_numbers items
  | JObj members => forallb (fun kv => no_numbers (snd kv)) members
  | _ => true
  end.

Fixpoint cost (v : json) : nat :=
  match v with
  | JArr items => S (fold_right (fun item n => S (cost item + n)) O items)
  | JObj members =>
      S (fold_right (fun kv n => S (cost (snd kv) + n)) O members)
  | _ => 1
  end.

(** A value is read back when parsing its text, followed by anything,
    returns the value and what follows. *)
Definition reads_back (v : json) : Prop :=
  no_numbers v = true ->
  forall level fuel rest,
    (cost v <= fuel)%nat ->
    parse_value fuel (dumps_at level v ++ rest)%string = Some (v, rest).

End JsonText.


(** ** Notions used to state the properties *)

(** The torrents the loop of [filter_torrents] looks at: those before the
    first one with [added_on < timeoffset_to]. *)
Fixpoint before_break (timeoffset_to : Q) (l : list torrent) : list torrent :=
  match l with
  | [] => []
  | t :: rest =>
      if older timeoffset_to t then [] else t :: before_break timeoffset_to rest
  end.

(** The path whose existence decides whether a torrent is on the cache. *)
Definition cache_path (cache_mount : string) (t : torrent) : string :=
  os_path_join cache_mount (lstrip_slash (content_path t)).

(** The path resolves to something that can be examined. *)
Definition present (f : filesystem) (path : string) : bool :=
  match f !! path with
  | None | Some Inaccessible => false
  | Some _ => true
  end.

(** What [os.access(path, os.W_OK)] answers, and whether [open(path, 'w')]
    succeeds. *)
Definition writable (f : filesystem) (path : string) : bool :=
  match f !! path with
  | Some (Dir w) => w
  | Some (File _) => true
  | _ => false
  end.

Definition openable (f : filesystem) (path : string) : bool :=
  match f !! path with
  | Some (Dir _) | Some Inaccessible => false
  | _ => true
  end.

(** A cache mount that is neither [None] nor the empty string. *)
Definition cache_filter_on (cache_mount : option string) : option string :=
  match cache_mount with
  | Some m => if String.eqb m "" then None else Some m
  | None => None
  end.

Definition on_cache (f : filesystem) (cache_mount : option string)
    (t : torrent) : bool :=
  match cache_filter_on cache_mount with
  | Some m => present f (cache_path m t)
  | None => true
  end.

(** The [os.stat] calls of one selection. *)
Definition cache_stats (cache_mount : option string)
    (timeoffset_from timeoffset_to : Q) (l : list torrent) : list event :=
  match cache_filter_on cache_mount with
  | Some m =>
      map (fun t => Stat (cache_path m t))
        (List.filter (in_window timeoffset_from timeoffset_to)
           (before_break timeoffset_to l))
  | None => []
  end.

(** The calls of a batch and the identifiers it covers. *)
Definition pause_calls (l : list torrent) : list event :=
  map (fun t => PauseCall (hash t)) l.

Definition resume_calls (l : list torrent) : list event :=
  map (fun t => ResumeCall (hash t)) l.

Definition hashes_of (l : list torrent) : gset string :=
  list_to_set (map hash l).

(** Newest first. *)
Definition sorted_desc (l : list torrent) : Prop :=
  Sorted (fun a b => added_on b <= added_on a) l.

(** The result of a run and whether it raised. *)
Definition value_of {A} (r : outcome A * world) : outcome A := fst r.
Definition world_of {A} (r : outcome A * world) : world := snd r.

Definition raises {A} (r : outcome A * world) : Prop :=
  exists e, value_of r = Raise e.

(** ** A sample installation

    Three completed torrents added one, three and five days ago; only the
    first still has its content on the cache. *)

Module Sample.

Definition now : Z := 1700000000.
Definition day : Z := 86400.

Definition one : torrent :=
  {| hash := "H1"; name := "one"; content_path := "/downloads/one";
     added_on := now - 1 * day |}.
Definition three : torrent :=
  {| hash := "H3"; name := "three"; content_path := "/downloads/three";
     added_on := now - 3 * day |}.
Definition five : torrent :=
  {| hash := "H5"; name := "five"; content_path := "/downloads/five";
     added_on := now - 5 * day |}.

Definition torrents : list torrent := [one; three; five].

Definition qbittorrent : qbit :=
  {| connect_error := None;
     torrents_info := fun _ => Ok torrents;
     pause_error := fun _ => None;
     resume_error := fun _ => None |}.

Definition wall_clock : clock :=
  {| timestamp_days_ago := fun d => inject_Z (now - d * day);
     now_isoformat := "2023-11-14T22:13:20.000000" |}.

Definition disk : filesystem :=
  {[ "/mnt/cache/downloads/one" := File "data";
     "/mnt/cache/downloads/locked" := Inaccessible;
     "/state" := Dir true ]}.

Definition start : world :=
  {| fs := disk; server := qbittorrent; time := wall_clock;
     paused := ∅; trace := [] |}.

(** The window of the defaults: from now back to two days ago. *)
Definition window_from : Q := timestamp_days_ago wall_clock 0.
Definition window_to : Q := timestamp_days_ago wall_clock 2.

Definition locked : torrent :=
  {| hash := "H0"; name := "locked"; content_path := "/downloads/locked";
     added_on := now - 1 * day |}.

Definition gone : torrent :=
  {| hash := "H9"; name := "gone"; content_path := "/downloads/gone";
     added_on := now - 1 * day |}.

Definition state_path : string := "/state/qbit_mover_state.json".

(** A state file holding a JSON array of the two key names. *)
Definition array_text : string :=
  "[" ++ JsonText.quote "torrent_hashes" ++ ", "
  ++ JsonText.quote "timestamp" ++ "]".

Definition array_state_world : world :=
  {| fs := <[state_path := File array_text]> disk; server := qbittorrent;
     time := wall_clock; paused := ∅; trace := [] |}.

(** The state left by a pause of [one] and [gone]; [gone] has since been
    deleted from the client. *)
Definition saved_disk : filesystem :=
  <[state_path := File (JsonText.dumps
                          (state_of [one; gone] (now_isoformat wall_clock)))]>
    disk.

Definition saved_world : world :=
  {| fs := saved_disk; server := qbittorrent; time := wall_clock;
     paused := {[ "H1"; "H9" ]}; trace := [] |}.

(** A server on which the torrent added three days ago cannot be
    paused. *)
Definition stubborn : qbit :=
  {| connect_error := None;
     torrents_info := fun _ => Ok torrents;
     pause_error := fun h =>
       if String.eqb h "H3" then Some (Exn OtherException "Conflict") else None;
     resume_error := fun _ => None |}.

Definition stubborn_world : world :=
  {| fs := disk; server := stubborn; time := wall_clock;
     paused := ∅; trace := [] |}.

Definition command (a : action_choice) : command_line :=
  {| cl_action := a; cl_host := "localhost:8080"; cl_user := None;
     cl_password := None; cl_cache_mount := None; cl_days_from := None;
     cl_days_to := None; cl_status_filter := None;
     cl_state_file := Some state_path; cl_verbose := false |}.

Definition with_days (cl : command_line) (from to : option Z) : command_line :=
  {| cl_action := cl_action cl; cl_host := cl_host cl; cl_user := cl_user cl;
     cl_password := cl_password cl; cl_cache_mount := cl_cache_mount cl;
     cl_days_from := from; cl_days_to := to;
     cl_status_filter := cl_status_filter cl;
     cl_state_file := cl_state_file cl; cl_verbose := cl_verbose cl |}.

(** A directory that cannot be written, and a state path under it. *)
Definition readonly_disk : filesystem :=
  <["/readonly" := Dir false]> disk.

Definition readonly_world : world :=
  {| fs := readonly_disk; server := qbittorrent; time := wall_clock;
     paused := ∅; trace := [] |}.

Definition readonly_path : string := "/readonly/qbit_mover_state.json".
Definition missing_path : string := "/nowhere/qbit_mover_state.json".

(** A server that refuses the login, and one on which the torrent added
    one day ago cannot be resumed. *)
Definition locked_out : qbit :=
  {| connect_error := Some (Exn LoginFailed "Forbidden");
     torrents_info := fun _ => Ok torrents;
     pause_error := fun _ => None;
     resume_error := fun _ => None |}.

Definition sticky : qbit :=
  {| connect_error := None;
     torrents_info := fun _ => Ok torrents;
     pause_error := fun _ => None;
     resume_error := fun h =>
       if String.eqb h "H1" then Some (Exn OtherException "Conflict") else None |}.

Definition with_server (w : world) (s : qbit) : world :=
  {| fs := fs w; server := s; time := time w; paused := paused w;
     trace := trace w |}.

Definition with_state_file (cl : command_line) (path : string)
  : command_line :=
  {| cl_action := cl_action cl; cl_host := cl_host cl; cl_user := cl_user cl;
     cl_password := cl_password cl; cl_cache_mount := cl_cache_mount cl;
     cl_days_from := cl_days_from cl; cl_days_to := cl_days_to cl;
     cl_status_filter := cl_status_filter cl;
     cl_state_file := Some path; cl_verbose := cl_verbose cl |}.

Definition with_cache_mount (cl : command_line) (mount : string)
  : command_line :=
  {| cl_action := cl_action cl; cl_host := cl_host cl; cl_user := cl_user cl;
     cl_password := cl_password cl; cl_cache_mount := Some mount;
     cl_days_from := cl_days_from cl; cl_days_to := cl_days_to cl;
     cl_status_filter := cl_status_filter cl;
     cl_state_file := cl_state_file cl; cl_verbose := cl_verbose cl |}.

(** A state file holding [null], and one holding an object whose
    [torrent_hashes] is [null]. *)
Definition null_world : world :=
  {| fs := <[state_path := File "null"]> disk; server := qbittorrent;
     time := wall_clock; paused := ∅; trace := [] |}.

Definition null_hashes : json :=
  JObj [("torrent_hashes", JNull); ("timestamp", JStr "2023-11-14T22:13:20")].

Definition null_hashes_world : world :=
  {| fs := <[state_path := File (JsonText.dumps null_hashes)]> disk;
     server := qbittorrent; time := wall_clock; paused := ∅; trace := [] |}.

(** A state file without the [timestamp] member. *)
Definition no_timestamp : json := JObj [("torrent_hashes", JArr [JStr "H1"])].

Definition no_timestamp_world : world :=
  {| fs := <[state_path := File (JsonText.dumps no_timestamp)]> disk;
     server := qbittorrent; time := wall_clock; paused := ∅; trace := [] |}.

End Sample.

(** * Properties *)

(** ** Running programs *)

Lemma add_events_nil w : add_events w [] = w.
Proof. destruct w; unfold add_events; simpl. by rewrite app_nil_r. Qed.

Lemma add_events_app w evs1 evs2 :
  add_events (add_events w evs1) evs2 = add_events w (evs1 ++ evs2).
Proof. unfold add_events; simpl. by rewrite app_assoc. Qed.

Lemma emit_run ev w : emit ev w = (Ok tt, add_events w [ev]).
Proof. reflexivity. Qed.

Lemma os_path_exists_run path w :
  os_path_exists path w = (Ok (present (fs w) path), add_events w [Stat path]).
Proof.
  unfold os_path_exists, try_except, os_stat, bind, present.
  rewrite emit_run. unfold get_world. simpl.
  destruct (fs w !! path) as [[c|d|]|]; reflexivity.
Qed.

(** ** Selection *)

Section Selection.

Variables timeoffset_from timeoffset_to : Q.
Variable cache_mount : option string.

Local Abbreviation eligible := (in_window timeoffset_from timeoffset_to).
Local Abbreviation loop := (filter_loop timeoffset_from timeoffset_to cache_mount).

Lemma older_not_in_window t : older timeoffset_to t = true -> eligible t = false.
Proof.
  unfold older, Qlt_bool, in_window.
  destruct (Qle_bool timeoffset_to (inject_Z (added_on t))); simpl; congruence.
Qed.

Lemma cache_test_run path t w :
  path = content_path t ->
  cache_test cache_mount path w
  = (Ok (on_cache (fs w) cache_mount t),
     add_events w (match cache_filter_on cache_mount with
                   | Some m => [Stat (cache_path m t)]
                   | None => []
                   end)).
Proof.
  intros ->. unfold cache_test, on_cache, cache_filter_on.
  destruct cache_mount as [m|]; [destruct (String.eqb m "")|];
    rewrite ?add_events_nil; try reflexivity.
  unfold exists_in_cache. apply os_path_exists_run.
Qed.

(** What the loop returns and what it leaves behind. *)
Lemma filter_loop_run l : forall acc w,
  loop l acc w
  = (Ok (acc ++ List.filter (fun t => eligible t && on_cache (fs w) cache_mount t)
                  (before_break timeoffset_to l))%list,
     add_events w (cache_stats cache_mount timeoffset_from timeoffset_to l)).
Proof.
  induction l as [|t l IH]; intros acc w; simpl.
  - unfold cache_stats. destruct (cache_filter_on cache_mount); simpl;
      by rewrite app_nil_r, add_events_nil.
  - destruct (eligible t) eqn:Hwin.
    + assert (older timeoffset_to t = false) as Hold.
      { destruct (older timeoffset_to t) eqn:E; [|done].
        apply older_not_in_window in E. congruence. }
      rewrite Hold. simpl. rewrite Hwin. simpl.
      unfold bind. rewrite (cache_test_run _ t) by done.
      unfold cache_stats. simpl. rewrite Hold. simpl. rewrite Hwin.
      destruct (on_cache (fs w) cache_mount t) eqn:Hc; rewrite IH; simpl;
        unfold cache_stats; rewrite add_events_app;
        destruct (cache_filter_on cache_mount); simpl;
        rewrite <- ?app_assoc; reflexivity.
    + destruct (older timeoffset_to t) eqn:Hold; simpl.
      * unfold cache_stats. simpl. rewrite Hold.
        destruct (cache_filter_on cache_mount); simpl;
          by rewrite app_nil_r, add_events_nil.
      * rewrite Hwin. simpl. rewrite IH. unfold cache_stats. simpl.
        rewrite Hold. simpl. rewrite Hwin. reflexivity.
Qed.

Lemma filter_torrents_run l w :
  filter_torrents l timeoffset_from timeoffset_to cache_mount w
  = (Ok (List.filter (fun t => eligible t && on_cache (fs w) cache_mount t)
           (before_break timeoffset_to l)),
     add_events w (cache_stats cache_mount timeoffset_from timeoffset_to l)).
Proof. unfold filter_torrents. by rewrite filter_loop_run. Qed.

Lemma in_window_spec t :
  eligible t = true
  <-> (timeoffset_to <= inject_Z (added_on t)
       /\ inject_Z (added_on t) <= timeoffset_from)%Q.
Proof. unfold in_window. by rewrite andb_true_iff, !Qle_bool_iff. Qed.

Lemma older_spec t :
  older timeoffset_to t = true <-> (inject_Z (added_on t) < timeoffset_to)%Q.
Proof.
  unfold older, Qlt_bool. rewrite negb_true_iff.
  destruct (Qle_bool timeoffset_to (inject_Z (added_on t))) eqn:E.
  - apply Qle_bool_iff in E. split; [done|].
    intros H. by apply Qlt_not_le in H.
  - split; [intros _|done]. apply Qnot_le_lt. intros H.
    apply Qle_bool_iff in H. congruence.
Qed.

Lemma before_break_sublist l : before_break timeoffset_to l `sublist_of` l.
Proof.
  induction l as [|t l IH]; simpl; [constructor|].
  destruct (older timeoffset_to t).
  - apply sublist_nil_l.
  - by constructor.
Qed.

Lemma filter_bool_sublist {A} (p : A -> bool) (l : list A) :
  List.filter p l `sublist_of` l.
Proof.
  induction l as [|x l IH]; simpl; [constructor|].
  destruct (p x); by constructor.
Qed.

(** Once a torrent is older than the window, so is everything after it in
    a list sorted newest first. *)
Lemma sorted_desc_tail_older t l :
  sorted_desc (t :: l) -> older timeoffset_to t = true ->
  List.filter eligible l = [].
Proof.
  intros Hs Hold. apply Sorted_StronglySorted in Hs.
  2:{ intros a b c Hab Hbc. lia. }
  apply StronglySorted_inv in Hs as [_ Hall].
  apply older_spec in Hold.
  induction l as [|u l IH]; [done|].
  apply Forall_cons in Hall as [Hu Hall]. simpl.
  destruct (eligible u) eqn:E; [|by apply IH].
  apply in_window_spec in E as [E _]. exfalso.
  apply (Qlt_not_le _ _ Hold). eapply Qle_trans; [exact E|].
  by rewrite <- Zle_Qle.
Qed.

Lemma sorted_desc_before_break l :
  sorted_desc l ->
  List.filter eligible (before_break timeoffset_to l) = List.filter eligible l.
Proof.
  induction l as [|t l IH]; intros Hs; [done|]. simpl.
  destruct (older timeoffset_to t) eqn:Hold.
  - rewrite (older_not_in_window _ Hold). simpl.
    symmetry. by eapply sorted_desc_tail_older.
  - simpl. rewrite IH; [done|]. by apply Sorted_inv in Hs as [? _].
Qed.

End Selection.

(** ** The selection on every input *)

Lemma exists_in_cache_run m path w :
  exists_in_cache m path w
  = (Ok (present (fs w) (os_path_join m (lstrip_slash path))),
     add_events w [Stat (os_path_join m (lstrip_slash path))]).
Proof. unfold exists_in_cache. apply os_path_exists_run. Qed.

Lemma filter_bool_and {A} (p q : A -> bool) (l : list A) :
  List.filter (fun x => p x && q x) l = List.filter q (List.filter p l).
Proof.
  induction l as [|x l IH]; [done|]. simpl.
  destruct (p x); simpl; [destruct (q x)|]; by rewrite IH.
Qed.

Lemma elem_of_filter_bool {A} (p : A -> bool) (l : list A) x :
  x ∈ List.filter p l <-> x ∈ l /\ p x = true.
Proof. rewrite !list_elem_of_In. apply filter_In. Qed.

Lemma on_cache_None f t : on_cache f None t = true.
Proof. reflexivity. Qed.

Lemma filter_bool_true {A} (l : list A) : List.filter (fun _ => true) l = l.
Proof. induction l; simpl; congruence. Qed.

(** C1.  For a list sorted newest first, the selection without cache
    filter returns exactly the torrents with
    [timeoffset_to <= added_on <= timeoffset_from], in their original
    order, and leaves the world as it was.  No returned torrent has
    [added_on < timeoffset_to], and every torrent in the window that
    comes before the first one older than the window is returned.  The
    window need not satisfy [timeoffset_to <= timeoffset_from]: an empty
    window selects nothing. *)
Theorem filter_torrents_sorted_exact l timeoffset_from timeoffset_to w :
  sorted_desc l ->
  exists out,
    filter_torrents l timeoffset_from timeoffset_to None w = (Ok out, w)
    /\ out = List.filter (in_window timeoffset_from timeoffset_to) l
    /\ (forall t, t ∈ out <->
          t ∈ l /\ (timeoffset_to <= inject_Z (added_on t)
                    /\ inject_Z (added_on t) <= timeoffset_from)%Q)
    /\ (forall t, t ∈ out -> ~ (inject_Z (added_on t) < timeoffset_to)%Q)
    /\ (forall l1 t l2,
          l = (l1 ++ t :: l2)%list ->
          Forall (fun u => ~ (inject_Z (added_on u) < timeoffset_to)%Q) l1 ->
          in_window timeoffset_from timeoffset_to t = true ->
          t ∈ out).
Proof.
  intros Hs. eexists. split; [|split; [reflexivity|]].
  - rewrite filter_torrents_run. unfold cache_stats. simpl.
    rewrite add_events_nil. f_equal. f_equal.
    rewrite <- (sorted_desc_before_break timeoffset_from timeoffset_to l Hs).
    apply filter_ext. intros t. by rewrite on_cache_None, andb_true_r.
  - split; [|split].
    + intros t. rewrite elem_of_filter_bool. by rewrite in_window_spec.
    + intros t [_ Hwin]%elem_of_filter_bool Hlt.
      apply in_window_spec in Hwin as [Hto _]. by apply (Qlt_not_le _ _ Hlt).
    + intros l1 t l2 -> _ Hwin. apply elem_of_filter_bool. split; [|done].
      apply elem_of_app. right. by left.
Qed.

(** The selection of the sample with the default window is the torrent
    added one day ago. *)
Lemma filter_torrents_sorted_exact_witness :
  sorted_desc Sample.torrents
  /\ exists out,
       filter_torrents Sample.torrents Sample.window_from Sample.window_to None
         Sample.start = (Ok out, Sample.start)
       /\ out = [Sample.one].
Proof.
  assert (sorted_desc Sample.torrents) as Hs.
  { repeat constructor; vm_compute; discriminate. }
  split; [exact Hs|].
  destruct (filter_torrents_sorted_exact Sample.torrents Sample.window_from
              Sample.window_to Sample.start Hs) as (out & Hrun & Hout & _).
  exists out. split; [exact Hrun|]. rewrite Hout. reflexivity.
Defined.

Lemma os_stat_value path w :
  value_of (os_stat path w)
  = match fs w !! path with
    | None => Raise (Exn FileNotFoundError path)
    | Some Inaccessible => Raise (Exn PermissionError path)
    | Some n => Ok n
    end.
Proof.
  unfold os_stat, bind, value_of. rewrite emit_run. unfold get_world. simpl.
  destruct (fs w !! path) as [[c|d|]|]; reflexivity.
Qed.

Lemma os_stat_raise_absent path w e :
  value_of (os_stat path w) = Raise e -> present (fs w) path = false.
Proof.
  rewrite os_stat_value. unfold present.
  destruct (fs w !! path) as [[c|d|]|]; congruence.
Qed.

Lemma exists_in_cache_value m t w :
  value_of (exists_in_cache m (content_path t) w)
  = Ok (present (fs w) (cache_path m t)).
Proof. by rewrite exists_in_cache_run. Qed.

Lemma cache_filter_on_Some m : m <> "" -> cache_filter_on (Some m) = Some m.
Proof.
  intros Hm. unfold cache_filter_on.
  destruct (String.eqb_spec m ""); congruence.
Qed.

Lemma on_cache_Some f m t :
  m <> "" -> on_cache f (Some m) t = present f (cache_path m t).
Proof. intros Hm. unfold on_cache. by rewrite cache_filter_on_Some. Qed.

Lemma on_cache_off f cache_mount t :
  cache_filter_on cache_mount = None -> on_cache f cache_mount t = true.
Proof. intros H. unfold on_cache. by rewrite H. Qed.

(** The empty string as cache mount is false as a truth value: the
    selection is the one made with [None]. *)
Lemma empty_cache_mount_no_filter l timeoffset_from timeoffset_to w :
  filter_torrents l timeoffset_from timeoffset_to (Some "") w
  = filter_torrents l timeoffset_from timeoffset_to None w.
Proof. by rewrite !filter_torrents_run. Qed.

(** C10.  For every input list, sorted or not, the selection returns a
    subsequence of the input in which every torrent has
    [timeoffset_to <= added_on <= timeoffset_from] and, when a cache
    filter is set, passes the cache-existence test.  The filter is set
    when the cache mount is a non-empty string: the test [not cache_mount]
    of the source takes [None] and the empty string alike for no filter.
    Violating the sortedness precondition can thus only leave torrents
    out. *)
Theorem filter_torrents_subsequence l timeoffset_from timeoffset_to cache_mount w :
  exists out w',
    filter_torrents l timeoffset_from timeoffset_to cache_mount w = (Ok out, w')
    /\ out `sublist_of` l
    /\ Forall (fun t => (timeoffset_to <= inject_Z (added_on t)
                         /\ inject_Z (added_on t) <= timeoffset_from)%Q) out
    /\ (forall m, cache_mount = Some m -> m <> "" ->
          Forall (fun t => value_of (exists_in_cache m (content_path t) w) = Ok true)
            out).
Proof.
  eexists _, _. split; [apply filter_torrents_run|]. split; [|split].
  - etrans; [apply filter_bool_sublist|apply before_break_sublist].
  - apply Forall_forall. intros t [_ Ht]%elem_of_filter_bool.
    apply andb_true_iff in Ht as [Ht _]. by apply in_window_spec in Ht.
  - intros m -> Hm. apply Forall_forall. intros t [_ Ht]%elem_of_filter_bool.
    apply andb_true_iff in Ht as [_ Ht]. rewrite on_cache_Some in Ht by done.
    by rewrite exists_in_cache_value, Ht.
Qed.

Lemma filter_torrents_subsequence_witness :
  exists out,
    value_of (filter_torrents Sample.torrents Sample.window_from
                Sample.window_to (Some "/mnt/cache") Sample.start) = Ok out
    /\ Forall (fun t => value_of (exists_in_cache "/mnt/cache" (content_path t)
                                    Sample.start) = Ok true) out.
Proof.
  destruct (filter_torrents_subsequence Sample.torrents Sample.window_from
              Sample.window_to (Some "/mnt/cache") Sample.start)
    as (out & w' & Hrun & _ & _ & Hcache).
  exists out. split; [by rewrite Hrun|].
  apply (Hcache "/mnt/cache"); [reflexivity|discriminate].
Defined.

(** C5, as stated, fails on a list that is not sorted: with [None] as
    cache mount the torrent added one day ago is in the window, and the
    selection leaves it out because an older torrent comes first. *)
Lemma time_eligible_after_older_dropped :
  in_window Sample.window_from Sample.window_to Sample.one = true
  /\ Sample.one ∈ [Sample.five; Sample.one]
  /\ value_of (filter_torrents [Sample.five; Sample.one] Sample.window_from
                 Sample.window_to None Sample.start) = Ok [].
Proof.
  split; [reflexivity|]. split; [|reflexivity].
  apply list_elem_of_further, list_elem_of_here.
Qed.

(** C5 (amended).  The cache filter is a conjunct added to the selection
    by time.  With [None] as cache mount the selection returns every
    torrent in the window that the loop reaches, which on a list sorted
    newest first is every torrent in the window.  With a cache mount, a
    non-empty string, it returns, in the same order, those of them that
    pass the cache-existence test: a torrent whose content does not exist
    under the mount is always left out, and no torrent is added.  The
    empty string as cache mount leaves the filter off, like [None]. *)
Theorem cache_filter_conjunction l timeoffset_from timeoffset_to cache_mount w :
  exists by_time out,
    value_of (filter_torrents l timeoffset_from timeoffset_to None w) = Ok by_time
    /\ value_of (filter_torrents l timeoffset_from timeoffset_to cache_mount w)
       = Ok out
    /\ by_time = List.filter (in_window timeoffset_from timeoffset_to)
                   (before_break timeoffset_to l)
    /\ (sorted_desc l ->
        by_time = List.filter (in_window timeoffset_from timeoffset_to) l)
    /\ out `sublist_of` by_time
    /\ (cache_mount = None \/ cache_mount = Some "" -> out = by_time)
    /\ (forall m, cache_mount = Some m -> m <> "" ->
          forall t,
            t ∈ out <->
            t ∈ by_time
            /\ value_of (exists_in_cache m (content_path t) w) = Ok true)
    /\ (forall m t, cache_mount = Some m -> m <> "" ->
          value_of (exists_in_cache m (content_path t) w) = Ok false ->
          t ∉ out).
Proof.
  exists (List.filter (in_window timeoffset_from timeoffset_to)
            (before_break timeoffset_to l)).
  exists (List.filter (on_cache (fs w) cache_mount)
            (List.filter (in_window timeoffset_from timeoffset_to)
               (before_break timeoffset_to l))).
  split.
  { rewrite filter_torrents_run. unfold value_of. simpl. f_equal.
    apply filter_ext. intros t. by rewrite on_cache_None, andb_true_r. }
  split.
  { rewrite filter_torrents_run. unfold value_of. simpl. f_equal.
    apply filter_bool_and. }
  split; [reflexivity|].
  split.
  { intros Hs. by apply sorted_desc_before_break. }
  split; [apply filter_bool_sublist|].
  split.
  { intros Hoff.
    rewrite <- (filter_bool_true (List.filter (in_window _ _) _)) at 2.
    apply filter_ext. intros t. apply on_cache_off.
    by destruct Hoff as [-> | ->]. }
  split.
  - intros m -> Hm t. rewrite elem_of_filter_bool, on_cache_Some by done.
    rewrite exists_in_cache_value. split; intros [? Ht]; split; congruence.
  - intros m t -> Hm Hmiss [_ Ht]%elem_of_filter_bool.
    rewrite on_cache_Some in Ht by done.
    rewrite exists_in_cache_value in Hmiss. congruence.
Qed.

(** With the cache mount of the sample only the torrent added one day ago
    is selected, and the torrent whose content is gone is ruled out. *)
Lemma cache_filter_conjunction_witness :
  sorted_desc (Sample.gone :: Sample.torrents)
  /\ exists by_time out,
       value_of (filter_torrents (Sample.gone :: Sample.torrents)
                   Sample.window_from Sample.window_to None Sample.start)
       = Ok by_time
       /\ value_of (filter_torrents (Sample.gone :: Sample.torrents)
                      Sample.window_from Sample.window_to (Some "/mnt/cache")
                      Sample.start) = Ok out
       /\ by_time = [Sample.gone; Sample.one]
       /\ Sample.gone ∉ out.
Proof.
  assert (sorted_desc (Sample.gone :: Sample.torrents)) as Hs.
  { repeat constructor; vm_compute; discriminate. }
  split; [exact Hs|].
  destruct (cache_filter_conjunction (Sample.gone :: Sample.torrents)
              Sample.window_from Sample.window_to (Some "/mnt/cache")
              Sample.start)
    as (by_time & out & H1 & H2 & _ & Hsorted & _ & _ & _ & Hmiss).
  exists by_time, out. split; [exact H1|]. split; [exact H2|]. split.
  - rewrite (Hsorted Hs). reflexivity.
  - apply (Hmiss "/mnt/cache"); [reflexivity|discriminate|].
    rewrite exists_in_cache_value. reflexivity.
Defined.

(** C6, as stated, fails: examining the cache path of the torrent raises
    [PermissionError], and the selection returns normally, without the
    torrent. *)
Lemma permission_error_not_propagated :
  (exists e,
     value_of (os_stat (cache_path "/mnt/cache" Sample.locked) Sample.start)
     = Raise e
     /\ exn_kind e = PermissionError)
  /\ ~ raises (filter_torrents [Sample.locked] Sample.window_from
                 Sample.window_to (Some "/mnt/cache") Sample.start)
  /\ value_of (filter_torrents [Sample.locked] Sample.window_from
                 Sample.window_to (Some "/mnt/cache") Sample.start) = Ok [].
Proof.
  split; [|split].
  - eexists. split; reflexivity.
  - intros [e He]. discriminate He.
  - reflexivity.
Qed.

(** C6 (amended).  The selection never fails because of the filesystem:
    when examining the cache path of a torrent raises an error, whether
    "not found" or any other such as a permission error, the torrent
    counts as not cached and is left out of the result, and the selection
    returns normally. *)
Theorem filter_torrents_absorbs_stat_errors
    l timeoffset_from timeoffset_to cache_mount w :
  exists out,
    value_of (filter_torrents l timeoffset_from timeoffset_to cache_mount w)
    = Ok out
    /\ ~ raises (filter_torrents l timeoffset_from timeoffset_to cache_mount w)
    /\ (forall m t e, cache_mount = Some m -> m <> "" ->
          value_of (os_stat (cache_path m t) w) = Raise e ->
          value_of (exists_in_cache m (content_path t) w) = Ok false
          /\ t ∉ out).
Proof.
  eexists. rewrite filter_torrents_run. split; [reflexivity|]. split.
  - intros [e He]. discriminate He.
  - intros m t e -> Hm Hraise. apply os_stat_raise_absent in Hraise.
    rewrite exists_in_cache_value, Hraise. split; [done|].
    intros [_ Ht]%elem_of_filter_bool.
    rewrite on_cache_Some in Ht by done. rewrite Hraise in Ht.
    by rewrite andb_false_r in Ht.
Qed.

Lemma filter_torrents_absorbs_stat_errors_witness :
  exists out,
    value_of (filter_torrents [Sample.one; Sample.locked] Sample.window_from
                Sample.window_to (Some "/mnt/cache") Sample.start) = Ok out
    /\ Sample.locked ∉ out.
Proof.
  destruct (filter_torrents_absorbs_stat_errors [Sample.one; Sample.locked]
              Sample.window_from Sample.window_to (Some "/mnt/cache")
              Sample.start) as (out & Hrun & _ & Herr).
  exists out. split; [exact Hrun|].
  apply (Herr "/mnt/cache" Sample.locked (Exn PermissionError
           "/mnt/cache/downloads/locked")); [reflexivity|discriminate|reflexivity].
Defined.

(** ** The JSON text codec reads back what it writes *)

Module JsonTextFacts.
Import JsonText.

#[local] Arguments String.append : simpl nomatch.

Lemma append_assoc (a b c : string) : ((a ++ b) ++ c)%string = (a ++ b ++ c)%string.
Proof. induction a as [|x a IH]; simpl; congruence. Qed.

Lemma append_nil_r (a : string) : (a ++ "")%string = a.
Proof. induction a as [|x a IH]; simpl; congruence. Qed.

Lemma length_append (a b : string) :
  String.length (a ++ b) = (String.length a + String.length b)%nat.
Proof. induction a as [|x a IH]; simpl; congruence. Qed.

Lemma json_nested_ind (P : json -> Prop) :
  P JNull -> (forall b, P (JBool b)) -> (forall n, P (JNum n)) ->
  (forall s, P (JStr s)) ->
  (forall items, Forall P items -> P (JArr items)) ->
  (forall members, Forall (fun kv => P (snd kv)) members -> P (JObj members)) ->
  forall v, P v.
Proof.
  intros Hnull Hbool Hnum Hstr Harr Hobj.
  fix IH 1. intros [ |b|n|s|items|members].
  - exact Hnull.
  - apply Hbool.
  - apply Hnum.
  - apply Hstr.
  - apply Harr. induction items as [|v items IHitems]; constructor.
    + apply IH.
    + exact IHitems.
  - apply Hobj. induction members as [|[k v] members IHmembers]; constructor.
    + apply IH.
    + exact IHmembers.
Qed.

(** *** String literals *)

Lemma parse_string_escape_char c fuel rest :
  parse_string (S fuel) (escape_char c ++ rest)
  = match parse_string fuel rest with
    | Some (str, r) => Some (String c str, r)
    | None => None
    end.
Proof. destruct c as [[] [] [] [] [] [] [] []]; reflexivity. Qed.

Lemma parse_string_escape s : forall fuel rest,
  (String.length s < fuel)%nat ->
  parse_string fuel (escape s ++ String dquote rest) = Some (s, rest).
Proof.
  induction s as [|c s IH]; intros fuel rest Hfuel;
    (destruct fuel as [|fuel]; [simpl in Hfuel; lia|]).
  - reflexivity.
  - simpl escape. rewrite append_assoc, parse_string_escape_char.
    rewrite IH; [done|]. simpl in Hfuel. lia.
Qed.

Lemma length_escape_char c : (1 <= String.length (escape_char c))%nat.
Proof. destruct c as [[] [] [] [] [] [] [] []]; simpl; lia. Qed.

Lemma length_escape s : (String.length s <= String.length (escape s))%nat.
Proof.
  induction s as [|c s IH]; [done|]. simpl. rewrite length_append.
  pose proof (length_escape_char c). lia.
Qed.

(** *** Whitespace and the start of a value *)

Lemma skip_ws_spaces n s : skip_ws (spaces n ++ s) = skip_ws s.
Proof. induction n as [|n IH]; [done|]. simpl. exact IH. Qed.

Lemma skip_ws_newline level s : skip_ws (newline level ++ s) = skip_ws s.
Proof. unfold newline. simpl. apply skip_ws_spaces. Qed.

Lemma skip_ws_starts_value s : starts_value s = true -> skip_ws s = s.
Proof.
  destruct s as [|c s]; [done|]. simpl.
  destruct (is_ws c); [discriminate|done].
Qed.

Lemma head_is_starts_value s :
  starts_value s = true ->
  head_is "]"%char s = None /\ head_is "}"%char s = None.
Proof.
  destruct s as [|c s]; [done|]. simpl.
  destruct (is_ws c), (Ascii.eqb c "]"), (Ascii.eqb c "}"); simpl;
    (discriminate || done).
Qed.

Lemma dumps_at_starts_value level v rest :
  no_numbers v = true -> starts_value (dumps_at level v ++ rest) = true.
Proof.
  destruct v as [ |[]|n|s|[|x items]|[|kv members]]; simpl;
    (discriminate || reflexivity).
Qed.

(** *** Values *)

#[local] Arguments newline : simpl never.
#[local] Arguments dumps_at : simpl never.

Lemma append_cons c (a b : string) : (String c a ++ b)%string = String c (a ++ b).
Proof. reflexivity. Qed.

Lemma append_nil_l (b : string) : ("" ++ b)%string = b.
Proof. reflexivity. Qed.

Ltac norm_str :=
  repeat (rewrite append_assoc || rewrite append_cons || rewrite append_nil_l).

Lemma parse_items_S fuel s :
  parse_items (S fuel) s
  = match parse_value fuel s with
    | Some (v, r) =>
        match head_is "]"%char (skip_ws r) with
        | Some r' => Some ([v], r')
        | None =>
            match head_is ","%char (skip_ws r) with
            | Some r' =>
                match parse_items fuel (skip_ws r') with
                | Some (items, r'') => Some (v :: items, r'')
                | None => None
                end
            | None => None
            end
        end
    | None => None
    end.
Proof. reflexivity. Qed.

Lemma concat_single sep (x : string) : String.concat sep [x] = x.
Proof. reflexivity. Qed.

Lemma concat_cons2 sep (x y : string) l :
  String.concat sep (x :: y :: l) = (x ++ sep ++ String.concat sep (y :: l))%string.
Proof. reflexivity. Qed.

Lemma parse_items_dumps level items : forall fuel rest,
  items <> [] ->
  Forall reads_back items ->
  forallb no_numbers items = true ->
  (fold_right (fun item n => S (cost item + n)) O items <= fuel)%nat ->
  parse_items fuel
    (String.concat ("," ++ newline (S level)) (map (dumps_at (S level)) items)
     ++ newline level ++ "]" ++ rest)
  = Some (items, rest).
Proof.
  induction items as [|v items IH]; intros fuel rest Hne Hall Hnum Hfuel;
    [done|].
  apply Forall_cons in Hall as [Hv Hall].
  simpl in Hnum. apply andb_true_iff in Hnum as [Hnv Hnum].
  simpl in Hfuel. destruct fuel as [|fuel]; [lia|].
  rewrite parse_items_S.
  destruct items as [|v' items].
  - cbn [List.map]. rewrite concat_single.
    rewrite (Hv Hnv) by lia. rewrite skip_ws_newline. norm_str. reflexivity.
  - cbn [List.map]. rewrite concat_cons2. norm_str.
    rewrite (Hv Hnv) by lia.
    change (skip_ws (String "," ?x)) with (String "," x).
    change (head_is "]" (String "," ?x)) with (@None string).
    change (head_is "," (String "," ?x)) with (Some x).
    cbv iota.
    change (dumps_at (S level) v' :: map (dumps_at (S level)) items)
      with (map (dumps_at (S level)) (v' :: items)).
    assert (skip_ws (newline (S level)
              ++ String.concat (String "," (newline (S level)))
                   (map (dumps_at (S level)) (v' :: items))
              ++ newline level ++ String "]" rest)
            = (String.concat (String "," (newline (S level)))
                   (map (dumps_at (S level)) (v' :: items))
              ++ newline level ++ String "]" rest)%string) as ->.
    { apply andb_true_iff in Hnum as [Hnv' _].
      rewrite skip_ws_newline. apply skip_ws_starts_value.
      destruct items; cbn [List.map];
        [rewrite concat_single|rewrite concat_cons2];
        norm_str; by apply dumps_at_starts_value. }
    specialize (IH fuel rest). revert IH. norm_str. intros ->; try done.
    cbn [fold_right] in Hfuel |- *. lia.
Qed.


Lemma parse_members_S fuel s :
  parse_members (S fuel) s
  = match head_is dquote s with
    | Some rest =>
        match parse_string (String.length s) rest with
        | Some (key, r) =>
            match head_is ":"%char (skip_ws r) with
            | Some r1 =>
                match parse_value fuel (skip_ws r1) with
                | Some (v, r2) =>
                    match head_is "}"%char (skip_ws r2) with
                    | Some r3 => Some ([(key, v)], r3)
                    | None =>
                        match head_is ","%char (skip_ws r2) with
                        | Some r3 =>
                            match parse_members fuel (skip_ws r3) with
                            | Some (members, r4) =>
                                Some ((key, v) :: members, r4)
                            | None => None
                            end
                        | None => None
                        end
                    end
                | None => None
                end
            | None => None
            end
        | None => None
        end
    | None => None
    end.
Proof. reflexivity. Qed.

(** One member followed by [tail], up to the value. *)
Lemma parse_member_key key text tail :
  let s := (quote key ++ ": " ++ text ++ tail)%string in
  head_is dquote s = Some (escape key ++ String dquote (": " ++ text ++ tail))
  /\ parse_string (String.length s)
       (escape key ++ String dquote (": " ++ text ++ tail))
     = Some (key, (": " ++ text ++ tail)%string).
Proof.
  intros s. subst s. unfold quote. norm_str. split; [reflexivity|].
  apply parse_string_escape. cbn [String.length]. rewrite length_append.
  pose proof (length_escape key). lia.
Qed.

Lemma parse_members_dumps level members : forall fuel rest,
  members <> [] ->
  Forall (fun kv => reads_back (snd kv)) members ->
  forallb (fun kv => no_numbers (snd kv)) members = true ->
  (fold_right (fun kv n => S (cost (snd kv) + n)) O members <= fuel)%nat ->
  parse_members fuel
    (String.concat ("," ++ newline (S level))
       (map (fun kv => quote (fst kv) ++ ": " ++ dumps_at (S level) (snd kv))
          members)
     ++ newline level ++ "}" ++ rest)
  = Some (members, rest).
Proof.
  induction members as [|[k v] members IH]; intros fuel rest Hne Hall Hnum Hfuel;
    [done|].
  apply Forall_cons in Hall as [Hv Hall]. simpl in Hv.
  simpl in Hnum. apply andb_true_iff in Hnum as [Hnv Hnum].
  cbn [fold_right snd] in Hfuel. destruct fuel as [|fuel]; [lia|].
  rewrite parse_members_S.
  destruct members as [|kv' members].
  - cbn [List.map fst snd]. rewrite concat_single.
    rewrite !append_assoc.
    destruct (parse_member_key k (dumps_at (S level) v)
                (newline level ++ "}" ++ rest)) as [-> ->].
    norm_str.
    change (skip_ws (String ":" ?x)) with (String ":" x).
    change (head_is ":" (String ":" ?x)) with (Some x). cbv iota.
    change (skip_ws (String " " ?x)) with (skip_ws x).
    rewrite skip_ws_starts_value by (by apply dumps_at_starts_value).
    rewrite (Hv Hnv) by lia. rewrite skip_ws_newline. reflexivity.
  - cbn [List.map fst snd]. rewrite concat_cons2. rewrite !append_assoc.
    match goal with
    | |- context [head_is dquote (quote k ++ ": " ++ dumps_at (S level) v
                                  ++ ?tail)%string] =>
        destruct (parse_member_key k (dumps_at (S level) v) tail) as [-> ->]
    end.
    norm_str.
    change (skip_ws (String ":" ?x)) with (String ":" x).
    change (head_is ":" (String ":" ?x)) with (Some x). cbv iota.
    change (skip_ws (String " " ?x)) with (skip_ws x).
    rewrite skip_ws_starts_value by (by apply dumps_at_starts_value).
    rewrite (Hv Hnv) by lia.
    change (skip_ws (String "," ?x)) with (String "," x).
    change (head_is "}" (String "," ?x)) with (@None string).
    change (head_is "," (String "," ?x)) with (Some x).
    cbv iota.
    rewrite skip_ws_newline.
    rewrite skip_ws_starts_value.
    2:{ destruct kv' as [k' v']. destruct members; cbn [List.map];
          [rewrite concat_single|rewrite concat_cons2]; reflexivity. }
    specialize (IH fuel rest). cbn [List.map fst snd] in IH.
    revert IH. norm_str. intros ->; try done.
    cbn [fold_right] in Hfuel |- *. lia.
Qed.


Lemma concat_values_start level items tail :
  items <> [] ->
  forallb no_numbers items = true ->
  starts_value
    (String.concat ("," ++ newline (S level)) (map (dumps_at (S level)) items)
     ++ tail) = true.
Proof.
  destruct items as [|v [|v' items]]; [done| |]; intros _ Hnum;
    apply andb_true_iff in Hnum as [Hv _]; cbn [List.map];
    [rewrite concat_single|rewrite concat_cons2]; norm_str;
    by apply dumps_at_starts_value.
Qed.

Lemma concat_members_start level (members : list (string * json)) tail :
  members <> [] ->
  starts_value
    (String.concat ("," ++ newline (S level))
       (map (fun kv => quote (fst kv) ++ ": " ++ dumps_at (S level) (snd kv))
          members)
     ++ tail) = true.
Proof.
  destruct members as [|kv [|kv' members]]; [done| |]; intros _;
    cbn [List.map]; [rewrite concat_single|rewrite concat_cons2];
    reflexivity.
Qed.

Lemma parse_value_quote fuel r :
  parse_value (S fuel) (String dquote r)
  = match parse_string (String.length (String dquote r)) r with
    | Some (str, r') => Some (JStr str, r')
    | None => None
    end.
Proof. reflexivity. Qed.

Lemma parse_value_bracket fuel r :
  parse_value (S fuel) (String "[" r)
  = match head_is "]"%char (skip_ws r) with
    | Some r' => Some (JArr [], r')
    | None =>
        match parse_items fuel (skip_ws r) with
        | Some (items, r') => Some (JArr items, r')
        | None => None
        end
    end.
Proof. reflexivity. Qed.

Lemma parse_value_brace fuel r :
  parse_value (S fuel) (String "{" r)
  = match head_is "}"%char (skip_ws r) with
    | Some r' => Some (JObj [], r')
    | None =>
        match parse_members fuel (skip_ws r) with
        | Some (members, r') => Some (JObj members, r')
        | None => None
        end
    end.
Proof. reflexivity. Qed.

Lemma dumps_at_arr level v items :
  dumps_at level (JArr (v :: items))
  = ("[" ++ newline (S level)
     ++ String.concat ("," ++ newline (S level))
          (map (dumps_at (S level)) (v :: items))
     ++ newline level ++ "]")%string.
Proof. reflexivity. Qed.

Lemma dumps_at_obj level kv members :
  dumps_at level (JObj (kv :: members))
  = ("{" ++ newline (S level)
     ++ String.concat ("," ++ newline (S level))
          (map (fun kv => quote (fst kv) ++ ": " ++ dumps_at (S level) (snd kv))
             (kv :: members))
     ++ newline level ++ "}")%string.
Proof. reflexivity. Qed.

(** Every value without numbers is read back from its text, whatever
    follows the text. *)
Lemma parse_value_dumps v : reads_back v.
Proof.
  induction v as [ |b|n|s|items IH|members IH] using json_nested_ind;
    intros Hnum level fuel rest Hfuel;
    (destruct fuel as [|fuel]; [simpl in Hfuel; lia|]).
  - reflexivity.
  - destruct b; reflexivity.
  - discriminate.
  - change (dumps_at level (JStr s)) with (quote s). unfold quote.
    norm_str. rewrite parse_value_quote.
    rewrite parse_string_escape; [done|].
    cbn [String.length]. rewrite length_append.
    pose proof (length_escape s). lia.
  - destruct items as [|v items]; [reflexivity|].
    rewrite dumps_at_arr. norm_str. rewrite parse_value_bracket.
    rewrite skip_ws_newline.
    assert (starts_value
              (String.concat (String "," (newline (S level)))
                 (map (dumps_at (S level)) (v :: items))
               ++ newline level ++ String "]" rest) = true) as Hstart.
    { pose proof (concat_values_start level (v :: items)
                    (newline level ++ String "]" rest)) as H.
      revert H. norm_str. intros H. by apply H. }
    rewrite (skip_ws_starts_value _ Hstart).
    destruct (head_is_starts_value _ Hstart) as [-> _].
    pose proof (parse_items_dumps level (v :: items) fuel rest) as H.
    revert H. norm_str. intros ->; try done.
    simpl in Hfuel. cbn [fold_right]. lia.
  - destruct members as [|kv members]; [reflexivity|].
    rewrite dumps_at_obj. norm_str. rewrite parse_value_brace.
    rewrite skip_ws_newline.
    assert (starts_value
              (String.concat (String "," (newline (S level)))
                 (map (fun kv => quote (fst kv) ++ ": "
                                 ++ dumps_at (S level) (snd kv))
                    (kv :: members))
               ++ newline level ++ String "}" rest) = true) as Hstart.
    { pose proof (concat_members_start level (kv :: members)
                    (newline level ++ String "}" rest)) as H.
      revert H. norm_str. intros H. by apply H. }
    rewrite (skip_ws_starts_value _ Hstart).
    destruct (head_is_starts_value _ Hstart) as [_ ->].
    pose proof (parse_members_dumps level (kv :: members) fuel rest) as H.
    revert H. norm_str. intros ->; try done.
    simpl in Hfuel. cbn [fold_right]. lia.
Qed.


(** *** The fuel of [loads] suffices *)

Lemma length_concat_cost {A} (f : A -> string) (c : A -> nat) sep l :
  (1 <= String.length sep)%nat ->
  Forall (fun x => (c x <= String.length (f x))%nat) l ->
  (fold_right (fun x n => S (c x + n)) O l
   <= S (String.length (String.concat sep (map f l))))%nat.
Proof.
  intros Hsep Hall. induction Hall as [|x l Hx Hall IH]; [simpl; lia|].
  destruct l as [|y l].
  - cbn [List.map fold_right]. rewrite concat_single. lia.
  - cbn [List.map]. rewrite concat_cons2, !length_append.
    cbn [List.map fold_right] in IH |- *. lia.
Qed.

Lemma cost_le_length v :
  no_numbers v = true ->
  forall level, (cost v <= String.length (dumps_at level v))%nat.
Proof.
  induction v as [ |b|n|s|items IH|members IH] using json_nested_ind;
    intros Hnum level.
  - simpl. lia.
  - destruct b; simpl; lia.
  - discriminate.
  - change (dumps_at level (JStr s)) with (quote s). unfold quote. simpl. lia.
  - destruct items as [|v items]; [simpl; lia|].
    rewrite dumps_at_arr, !length_append.
    pose proof (length_concat_cost (dumps_at (S level)) cost
                  ("," ++ newline (S level)) (v :: items)) as H.
    cbn [cost]. cbn [String.length] in H |- *.
    assert (Forall (fun x => (cost x <= String.length (dumps_at (S level) x))%nat)
              (v :: items)) as Hall.
    { apply Forall_forall. intros x Hx.
      rewrite Forall_forall in IH. apply IH; [done|].
      change (forallb no_numbers (v :: items) = true) in Hnum.
      rewrite forallb_forall in Hnum. by apply Hnum, list_elem_of_In. }
    assert (1 <= String.length ("," ++ newline (S level)))%nat as Hsep
      by (rewrite length_append; simpl; lia).
    specialize (H Hsep Hall). lia.
  - destruct members as [|kv members]; [simpl; lia|].
    rewrite dumps_at_obj, !length_append.
    pose proof (length_concat_cost
                  (fun kv => quote (fst kv) ++ ": " ++ dumps_at (S level) (snd kv))%string
                  (fun kv => cost (snd kv))
                  ("," ++ newline (S level)) (kv :: members)) as H.
    cbn [cost]. cbn [String.length] in H |- *.
    assert (Forall (fun kv => (cost (snd kv)
                               <= String.length
                                    (quote (fst kv) ++ ": "
                                     ++ dumps_at (S level) (snd kv)))%nat)
              (kv :: members)) as Hall.
    { apply Forall_forall. intros x Hx. rewrite !length_append.
      rewrite Forall_forall in IH.
      assert (cost (snd x) <= String.length (dumps_at (S level) (snd x)))%nat;
        [|lia].
      apply IH; [done|].
      change (forallb (fun kv => no_numbers (snd kv)) (kv :: members) = true)
        in Hnum.
      rewrite forallb_forall in Hnum. by apply (Hnum x), list_elem_of_In. }
    assert (1 <= String.length ("," ++ newline (S level)))%nat as Hsep
      by (rewrite length_append; simpl; lia).
    specialize (H Hsep Hall). lia.
Qed.

(** [loads] reads back what [dumps] writes for every value without
    numbers. *)
Theorem loads_dumps v : no_numbers v = true -> loads (dumps v) = Some v.
Proof.
  intros Hnum. unfold loads, dumps.
  pose proof (dumps_at_starts_value 0 v "" Hnum) as Hstart.
  rewrite append_nil_r in Hstart. rewrite (skip_ws_starts_value _ Hstart).
  pose proof (parse_value_dumps v Hnum 0%nat
                (S (String.length (dumps_at 0 v))) "") as Hparse.
  rewrite append_nil_r in Hparse. rewrite Hparse; [done|].
  pose proof (cost_le_length v Hnum 0). lia.
Qed.

End JsonTextFacts.

(** ** The state file *)

Lemma open_read_run path w :
  open_read path w
  = (match fs w !! path with
     | None => Raise (Exn FileNotFoundError path)
     | Some (File content) => Ok content
     | Some (Dir _) => Raise (Exn IsADirectoryError path)
     | Some Inaccessible => Raise (Exn PermissionError path)
     end, add_events w [OpenRead path]).
Proof.
  unfold open_read, bind, emit, get_world. simpl.
  destruct (fs w !! path) as [[c|d|]|]; reflexivity.
Qed.

Lemma open_write_run path content w :
  open_write path content w
  = match fs w !! path with
    | Some (Dir _) =>
        (Raise (Exn IsADirectoryError path), add_events w [OpenWrite path])
    | Some Inaccessible =>
        (Raise (Exn PermissionError path), add_events w [OpenWrite path])
    | _ => (Ok tt, with_fs (add_events w [OpenWrite path])
                     (<[path := File content]> (fs w)))
    end.
Proof.
  unfold open_write, bind, emit, get_world. simpl.
  destruct (fs w !! path) as [[c|d|]|]; reflexivity.
Qed.

Lemma os_remove_run path w :
  os_remove path w
  = match fs w !! path with
    | None => (Raise (Exn FileNotFoundError path), add_events w [Remove path])
    | Some (File _) =>
        (Ok tt, with_fs (add_events w [Remove path]) (delete path (fs w)))
    | Some (Dir _) =>
        (Raise (Exn IsADirectoryError path), add_events w [Remove path])
    | Some Inaccessible =>
        (Raise (Exn PermissionError path), add_events w [Remove path])
    end.
Proof.
  unfold os_remove, bind, emit, get_world. simpl.
  destruct (fs w !! path) as [[c|d|]|]; reflexivity.
Qed.

Section StateFile.

Variable json_dumps : json -> string.
Variable json_loads : string -> option json.
Variable os_path_abspath : string -> string.

Local Abbreviation save := (save_torrent_state json_dumps os_path_abspath).
Local Abbreviation load := (load_torrent_state json_loads).

(** A save that returns has written the serialized state to the path, and
    has changed nothing else on the filesystem. *)
Lemma save_torrent_state_Ok torrents state_file w w' :
  save torrents state_file w = (Ok tt, w') ->
  fs w' = <[state_file :=
              File (json_dumps (state_of torrents (now_isoformat (time w))))]>
            (fs w)
  /\ server w' = server w /\ time w' = time w /\ paused w' = paused w
  /\ exists evs, trace w' = (trace w ++ evs ++ [OpenWrite state_file])%list.
Proof.
  unfold save_torrent_state, bind, try_except, get_world.
  rewrite os_path_exists_run.
  destruct (present _ _); simpl; [|unfold raise; simpl; discriminate].
  match goal with |- context [negb ?b] => destruct b end;
    simpl; [|unfold raise; simpl; discriminate].
  rewrite open_write_run. simpl.
  destruct (fs w !! state_file) as [[c|d|]|]; simpl;
    unfold raise; simpl; try discriminate;
    intros [= <-]; simpl; (repeat split; try done);
    eexists [_; _]; by rewrite <- !app_assoc.
Qed.

#[local] Arguments all_in : simpl never.

(** The test for the required keys raises nothing but [TypeError]. *)
Lemma all_in_required_raise state e :
  all_in required_keys state = Raise e -> exn_kind e = TypeError.
Proof.
  unfold required_keys, all_in, py_in.
  destruct state; intros He;
    repeat (match type of He with
            | context [if ?b then _ else _] => destruct b
            end); by inversion He.
Qed.

(** [required_keys] is a set in the source, iterated in no fixed order:
    the test gives the same result in either order. *)
Lemma all_in_required_any_order state :
  all_in ["timestamp"; "torrent_hashes"] state = all_in required_keys state.
Proof.
  unfold required_keys, all_in, py_in.
  destruct state; try reflexivity;
    repeat match goal with
           | |- context [if ?b then _ else _] => destruct b
           | |- context [match Ok ?b with _ => _ end] => destruct b
           end; reflexivity.
Qed.

(** What [load_torrent_state] does, by the content of the path. *)
Lemma load_torrent_state_run state_file w :
  load state_file w
  = (match fs w !! state_file with
     | None =>
         Raise (Exn RuntimeError
                  ("No state file found at " ++ state_file
                   ++ ". Did you run with 'pause' first?"))
     | Some (File text) =>
         match json_loads text with
         | None =>
             Raise (Exn RuntimeError
                      ("State file " ++ state_file ++ " is corrupted"))
         | Some state =>
             match all_in required_keys state with
             | Ok true => Ok state
             | Ok false =>
                 Raise (Exn ValueError "State file is missing required fields")
             | Raise e => Raise e
             end
         end
     | Some (Dir _) =>
         Raise (Exn RuntimeError ("Failed to read state file: " ++ state_file))
     | Some Inaccessible =>
         Raise (Exn RuntimeError ("Failed to read state file: " ++ state_file))
     end, add_events w [OpenRead state_file]).
Proof.
  unfold load_torrent_state, try_except, bind. rewrite open_read_run.
  destruct (fs w !! state_file) as [[text|d|]|]; simpl; try reflexivity.
  destruct (json_loads text) as [state|]; simpl; [|reflexivity].
  unfold lift.
  destruct (all_in required_keys state) as [[|]|e] eqn:Hall; simpl;
    try reflexivity.
  by rewrite (all_in_required_raise _ _ Hall).
Qed.

Lemma state_of_required_keys torrents timestamp :
  all_in required_keys (state_of torrents timestamp) = Ok true.
Proof. reflexivity. Qed.

Lemma state_of_torrent_hashes torrents timestamp :
  py_getitem (state_of torrents timestamp) "torrent_hashes"
  = Ok (JArr (map JStr (map hash torrents))).
Proof. unfold state_of. by rewrite map_map. Qed.

(** After a save that returned, the path holds the serialized state. *)
Lemma save_writes_state torrents state_file w :
  value_of (save torrents state_file w) = Ok tt ->
  fs (world_of (save torrents state_file w)) !! state_file
  = Some (File (json_dumps (state_of torrents (now_isoformat (time w))))).
Proof.
  intros Hsave.
  destruct (save torrents state_file w) as [r w'] eqn:Hrun.
  unfold value_of in Hsave. simpl in Hsave. subst r.
  apply save_torrent_state_Ok in Hrun as (Hfs & _).
  unfold world_of. simpl. by rewrite Hfs, lookup_insert_eq.
Qed.

(** C3.  When a save returns, and [json.load] reads back the state that
    [json.dump] wrote, a load of the same path returns a state whose
    [torrent_hashes] field is the list of the hashes of the saved
    torrents, in their order, and so the same set of identifiers. *)
Theorem save_then_load_roundtrip torrents state_file w :
  json_loads (json_dumps (state_of torrents (now_isoformat (time w))))
  = Some (state_of torrents (now_isoformat (time w))) ->
  value_of (save torrents state_file w) = Ok tt ->
  exists state hashes,
    value_of (load state_file (world_of (save torrents state_file w)))
    = Ok state
    /\ py_getitem state "torrent_hashes" = Ok (JArr (map JStr hashes))
    /\ hashes = map hash torrents
    /\ list_to_set hashes =@{gset string} list_to_set (map hash torrents).
Proof.
  intros Hjson Hsave.
  exists (state_of torrents (now_isoformat (time w))), (map hash torrents).
  split; [|split; [apply state_of_torrent_hashes|done]].
  rewrite load_torrent_state_run. unfold value_of. cbn [fst].
  rewrite (save_writes_state _ _ _ Hsave), Hjson.
  by rewrite state_of_required_keys.
Qed.

(** The three failures of a load. *)
Lemma load_missing_file state_file w :
  fs w !! state_file = None ->
  value_of (load state_file w)
  = Raise (Exn RuntimeError
             ("No state file found at " ++ state_file
              ++ ". Did you run with 'pause' first?")).
Proof. intros H. rewrite load_torrent_state_run. unfold value_of. simpl. by rewrite H. Qed.

Lemma load_corrupted_file state_file text w :
  fs w !! state_file = Some (File text) ->
  json_loads text = None ->
  value_of (load state_file w)
  = Raise (Exn RuntimeError ("State file " ++ state_file ++ " is corrupted")).
Proof.
  intros H1 H2. rewrite load_torrent_state_run. unfold value_of. simpl.
  by rewrite H1, H2.
Qed.

Lemma dict_get_app members kv key :
  dict_get (members ++ [kv]) key
  = if String.eqb key (fst kv) then Some (snd kv) else dict_get members key.
Proof. unfold dict_get. by rewrite fold_left_app. Qed.

Lemma dict_get_None members key :
  dict_get members key = None
  <-> existsb (fun kv => String.eqb key (fst kv)) members = false.
Proof.
  induction members as [|kv members IH] using rev_ind; [done|].
  rewrite dict_get_app, existsb_app. simpl. rewrite orb_false_r.
  destruct (String.eqb key (fst kv)).
  - rewrite orb_true_r. split; discriminate.
  - by rewrite orb_false_r.
Qed.

Lemma load_object_missing_field state_file text members w :
  fs w !! state_file = Some (File text) ->
  json_loads text = Some (JObj members) ->
  dict_get members "torrent_hashes" = None
  \/ dict_get members "timestamp" = None ->
  value_of (load state_file w)
  = Raise (Exn ValueError "State file is missing required fields").
Proof.
  intros H1 H2 Hmiss. rewrite load_torrent_state_run. unfold value_of. simpl.
  rewrite H1, H2. unfold required_keys, all_in, py_in.
  destruct Hmiss as [Hm|Hm]; apply dict_get_None in Hm; rewrite Hm; [done|].
  match goal with |- context [if ?b then _ else _] => destruct b end;
    reflexivity.
Qed.

Lemma load_object_Ok state_file members w :
  value_of (load state_file w) = Ok (JObj members) ->
  is_Some (dict_get members "torrent_hashes")
  /\ is_Some (dict_get members "timestamp").
Proof.
  rewrite load_torrent_state_run. unfold value_of. simpl.
  destruct (fs w !! state_file) as [[text|d|]|]; try discriminate.
  destruct (json_loads text) as [state|]; [|discriminate].
  destruct (all_in required_keys state) as [[|]|e] eqn:Hall; try discriminate.
  intros [= ->]. revert Hall. unfold required_keys, all_in, py_in.
  destruct (existsb _ members) eqn:E1; [|discriminate].
  destruct (existsb (fun kv => String.eqb "timestamp" (fst kv)) members) eqn:E2;
    [|discriminate].
  intros _. rewrite <- !not_eq_None_Some, !dict_get_None. split; congruence.
Qed.

(** The three failures differ: the first two by their message, the third
    by its class as well. *)
Lemma load_failures_distinct state_file :
  let missing := Exn RuntimeError
                   ("No state file found at " ++ state_file
                    ++ ". Did you run with 'pause' first?") in
  let corrupted := Exn RuntimeError
                     ("State file " ++ state_file ++ " is corrupted") in
  let invalid := Exn ValueError "State file is missing required fields" in
  missing <> corrupted /\ missing <> invalid /\ corrupted <> invalid.
Proof. simpl. repeat split; discriminate. Qed.

End StateFile.

(** Saving the first torrent of the sample and loading it back, with the
    JSON text codec. *)
Lemma save_then_load_roundtrip_witness :
  exists state,
    value_of (load_torrent_state JsonText.loads Sample.state_path
                (world_of (save_torrent_state JsonText.dumps id [Sample.one]
                             Sample.state_path Sample.start))) = Ok state
    /\ py_getitem state "torrent_hashes" = Ok (JArr [JStr "H1"]).
Proof.
  destruct (save_then_load_roundtrip JsonText.dumps JsonText.loads id
              [Sample.one] Sample.state_path Sample.start)
    as (state & hashes & Hload & Hget & Hhashes & _).
  - vm_compute. reflexivity.
  - vm_compute. reflexivity.
  - exists state. split; [exact Hload|]. rewrite Hget, Hhashes. reflexivity.
Defined.

Lemma state_of_no_numbers torrents timestamp :
  JsonText.no_numbers (state_of torrents timestamp) = true.
Proof.
  unfold state_of. simpl. rewrite andb_true_r.
  induction torrents as [|t torrents IH]; [done|]. exact IH.
Qed.

(** With the JSON text codec the round trip needs no assumption on the
    [json] module. *)
Corollary save_then_load_json_text os_path_abspath torrents state_file w :
  value_of (save_torrent_state JsonText.dumps os_path_abspath torrents
              state_file w) = Ok tt ->
  exists state,
    value_of (load_torrent_state JsonText.loads state_file
                (world_of (save_torrent_state JsonText.dumps os_path_abspath
                             torrents state_file w))) = Ok state
    /\ py_getitem state "torrent_hashes"
       = Ok (JArr (map JStr (map hash torrents))).
Proof.
  intros Hsave.
  exists (state_of torrents (now_isoformat (time w))).
  split; [|apply state_of_torrent_hashes].
  rewrite load_torrent_state_run. unfold value_of. cbn [fst].
  rewrite (save_writes_state _ _ _ _ _ Hsave).
  rewrite JsonTextFacts.loads_dumps by apply state_of_no_numbers.
  by rewrite state_of_required_keys.
Qed.

(** C4 at a state file that holds the JSON array of the two key names:
    the text is valid JSON without any field, yet the load returns it,
    and reading its [torrent_hashes] then raises [TypeError]. *)
Theorem load_returns_array_of_key_names :
  JsonText.loads Sample.array_text
  = Some (JArr [JStr "torrent_hashes"; JStr "timestamp"])
  /\ value_of (load_torrent_state JsonText.loads Sample.state_path
                 Sample.array_state_world)
     = Ok (JArr [JStr "torrent_hashes"; JStr "timestamp"])
  /\ py_getitem (JArr [JStr "torrent_hashes"; JStr "timestamp"])
       "torrent_hashes"
     = Raise (Exn TypeError "indices must be integers").
Proof. split; [|split]; vm_compute; reflexivity. Qed.

(** ** Calls on the client *)

#[local] Set Warnings "-clear-no-such-hyp".

Lemma bind_Ok {A B} (m : prog A) (k : A -> prog B) w a w' :
  m w = (Ok a, w') -> bind m k w = k a w'.
Proof. intros H. unfold bind. by rewrite H. Qed.

Lemma bind_Raise {A B} (m : prog A) (k : A -> prog B) w e w' :
  m w = (Raise e, w') -> bind m k w = (Raise e, w').
Proof. intros H. unfold bind. by rewrite H. Qed.

Lemma try_except_Ok {A} (m : prog A) handler w a w' :
  m w = (Ok a, w') -> try_except m handler w = (Ok a, w').
Proof. intros H. unfold try_except. by rewrite H. Qed.

Lemma Client_run h u p w :
  Client h u p w
  = (match connect_error (server w) with
     | Some e => Raise e
     | None => Ok tt
     end, add_events w [Connect h u p]).
Proof.
  unfold Client, bind, emit, get_world. simpl.
  by destruct (connect_error (server w)).
Qed.

Lemma client_torrents_info_run status_filter w :
  client_torrents_info status_filter w
  = (torrents_info (server w) status_filter,
     add_events w [TorrentsInfo status_filter]).
Proof. reflexivity. Qed.

Lemma torrent_pause_run t w :
  torrent_pause t w
  = match pause_error (server w) (hash t) with
    | Some e => (Raise e, add_events w [PauseCall (hash t)])
    | None =>
        (Ok tt, with_paused (add_events w [PauseCall (hash t)])
                  ({[hash t]} ∪ paused w))
    end.
Proof.
  unfold torrent_pause, bind, emit, get_world. simpl.
  by destruct (pause_error (server w) (hash t)).
Qed.

Lemma torrent_resume_run t w :
  torrent_resume t w
  = match resume_error (server w) (hash t) with
    | Some e => (Raise e, add_events w [ResumeCall (hash t)])
    | None =>
        (Ok tt, with_paused (add_events w [ResumeCall (hash t)])
                  (paused w ∖ {[hash t]}))
    end.
Proof.
  unfold torrent_resume, bind, emit, get_world. simpl.
  by destruct (resume_error (server w) (hash t)).
Qed.

Lemma world_eq w1 w2 :
  fs w1 = fs w2 -> server w1 = server w2 -> time w1 = time w2 ->
  paused w1 = paused w2 -> trace w1 = trace w2 -> w1 = w2.
Proof. destruct w1, w2; simpl; by intros -> -> -> -> ->. Qed.

(** A batch of pauses that all succeed. *)
Lemma manage_torrents_pause_all l : forall w,
  Forall (fun t => pause_error (server w) (hash t) = None) l ->
  manage_torrents l true w
  = (Ok tt, with_paused (add_events w (pause_calls l))
              (hashes_of l ∪ paused w)).
Proof.
  induction l as [|t l IH]; intros w Hall.
  - simpl. unfold ret. f_equal. apply world_eq; simpl; try done.
    + unfold hashes_of. simpl. set_solver.
    + by rewrite app_nil_r.
  - apply Forall_cons in Hall as [Ht Hall]. simpl.
    erewrite bind_Ok; [|by rewrite torrent_pause_run, Ht].
    rewrite IH by done. f_equal. apply world_eq; simpl; try done.
    + unfold hashes_of. simpl. set_solver.
    + by rewrite <- app_assoc.
Qed.

(** A batch of pauses whose first failure is at [t]. *)
Lemma manage_torrents_pause_fails pre t post e : forall w,
  Forall (fun u => pause_error (server w) (hash u) = None) pre ->
  pause_error (server w) (hash t) = Some e ->
  manage_torrents (pre ++ t :: post) true w
  = (Raise e, with_paused (add_events w (pause_calls (pre ++ [t])))
                (hashes_of pre ∪ paused w)).
Proof.
  induction pre as [|u pre IH]; intros w Hall Ht.
  - simpl. erewrite bind_Raise; [|by rewrite torrent_pause_run, Ht].
    f_equal. apply world_eq; simpl; try done.
    unfold hashes_of. simpl. set_solver.
  - apply Forall_cons in Hall as [Hu Hall]. simpl.
    erewrite bind_Ok; [|by rewrite torrent_pause_run, Hu].
    rewrite IH by done. f_equal. apply world_eq; simpl; try done.
    + unfold hashes_of. simpl. set_solver.
    + by rewrite <- app_assoc.
Qed.

(** A batch of resumes that all succeed. *)
Lemma manage_torrents_resume_all l : forall w,
  Forall (fun t => resume_error (server w) (hash t) = None) l ->
  manage_torrents l false w
  = (Ok tt, with_paused (add_events w (resume_calls l))
              (paused w ∖ hashes_of l)).
Proof.
  induction l as [|t l IH]; intros w Hall.
  - simpl. unfold ret. f_equal. apply world_eq; simpl; try done.
    + unfold hashes_of. simpl. set_solver.
    + by rewrite app_nil_r.
  - apply Forall_cons in Hall as [Ht Hall]. simpl.
    erewrite bind_Ok; [|by rewrite torrent_resume_run, Ht].
    rewrite IH by done. f_equal. apply world_eq; simpl; try done.
    + unfold hashes_of. simpl. set_solver.
    + by rewrite <- app_assoc.
Qed.

(** ** The two phases *)

Lemma status_name_completed s : status_name s = "completed" <-> s = st_completed.
Proof. destruct s; simpl; split; (done || discriminate). Qed.

Lemma provided_params_spec args p :
  p ∈ provided_params args
  <-> p ∈ pause_params /\ getattr args p <> get_default p.
Proof.
  unfold provided_params. rewrite elem_of_filter_bool, negb_true_iff.
  assert (forall a b, pyval_eqb a b = false <-> a <> b) as Heq.
  { intros [|n|s] [|m|t]; simpl; split; try done; try congruence.
    - intros H%Z.eqb_neq. congruence.
    - intros H. apply Z.eqb_neq. congruence.
    - intros H%String.eqb_neq. congruence.
    - intros H. apply String.eqb_neq. congruence. }
  by rewrite Heq.
Qed.

Lemma cleanup_run path w :
  exists f,
    try_except (os_remove path)
      (fun e => if is_OSError (exn_kind e) then ret tt else reraise e) w
    = (Ok tt, with_fs (add_events w [Remove path]) f).
Proof.
  unfold try_except. rewrite os_remove_run.
  destruct (fs w !! path) as [[c|d|]|]; simpl;
    first [by eexists | exists (fs w); unfold ret; f_equal; by apply world_eq].
Qed.

Lemma saved_torrents_run saved_state items snapshot w :
  py_getitem saved_state "torrent_hashes" = Ok (JArr items) ->
  saved_torrents saved_state snapshot w
  = (Ok (List.filter (fun t => existsb (str_eq_json (hash t)) items) snapshot), w).
Proof.
  intros Hget. induction snapshot as [|t rest IH]; [done|].
  simpl. unfold bind, lift in *. rewrite Hget. simpl. rewrite IH.
  by destruct (existsb _ items).
Qed.

Section Phases.

Variable json_dumps : json -> string.
Variable json_loads : string -> option json.
Variable os_path_abspath : string -> string.

Local Abbreviation run_try := (main_try json_dumps json_loads os_path_abspath).
Local Abbreviation run_main := (main json_dumps json_loads os_path_abspath).
Local Abbreviation load := (load_torrent_state json_loads).

Lemma main_of_try cl w :
  run_main cl w
  = match run_try (parse_args cl) w with
    | (Ok _, w') => (0, w')
    | (Raise _, w') => (1, w')
    end.
Proof. reflexivity. Qed.

(** C8.  A pause run with [days_from > days_to] is rejected with the
    configuration error and exit code [1], in the world it started in:
    no client connection was attempted and no file was touched. *)
Theorem pause_rejects_days_from_above_days_to cl w :
  cl_action cl = pause ->
  days_from (parse_args cl) > days_to (parse_args cl) ->
  run_try (parse_args cl) w
  = (Raise (Exn ValueError
              "Config Error: days_from must be set lower than days_to"), w)
  /\ run_main cl w = (1, w)
  /\ trace (snd (run_main cl w)) = trace w.
Proof.
  intros Hact Hgt.
  assert (run_try (parse_args cl) w
          = (Raise (Exn ValueError
               "Config Error: days_from must be set lower than days_to"), w))
    as Htry.
  { unfold main_try, validate_args. simpl. rewrite Hact. simpl.
    unfold pause_action. simpl.
    assert ((default 0 (cl_days_from cl) >? default 2 (cl_days_to cl)) = true)
      as -> by (simpl in Hgt; lia).
    reflexivity. }
  rewrite main_of_try, Htry. done.
Qed.

(** Which parameters the validation reports. *)
Lemma provided_params_names args :
  ("cache_mount" ∈ provided_params args <-> cache_mount args <> None)
  /\ ("days_from" ∈ provided_params args <-> days_from args <> 0)
  /\ ("days_to" ∈ provided_params args <-> days_to args <> 2)
  /\ ("status_filter" ∈ provided_params args
      <-> status_filter args <> st_completed).
Proof.
  rewrite !provided_params_spec. unfold pause_params, getattr, get_default.
  simpl. rewrite <- (status_name_completed (status_filter args)).
  split; [|split; [|split]]; (split; [intros [_ H]|intros H; split]);
    try (by repeat constructor); try congruence.
  - by destruct (cache_mount args).
  - by destruct (cache_mount args).
Qed.

(** C7 (amended).  A resume run in which a pause-only parameter has a
    value different from its default is rejected by the validation with a
    [ValueError] whose message lists exactly the parameters with such a
    value, with exit code [1] and in the world it started in: nothing
    was read, written or sent.  A parameter given with the value of its
    default is not detected. *)
Theorem resume_rejects_changed_pause_params cl w :
  cl_action cl = resume ->
  cache_mount (parse_args cl) <> None
  \/ days_from (parse_args cl) <> 0
  \/ days_to (parse_args cl) <> 2
  \/ status_filter (parse_args cl) <> st_completed ->
  run_try (parse_args cl) w
  = (Raise (Exn ValueError
              ("The following parameters are not valid with 'resume' action: "
               ++ String.concat ", " (provided_params (parse_args cl)))), w)
  /\ run_main cl w = (1, w)
  /\ ("cache_mount" ∈ provided_params (parse_args cl)
        <-> cache_mount (parse_args cl) <> None)
  /\ ("days_from" ∈ provided_params (parse_args cl)
        <-> days_from (parse_args cl) <> 0)
  /\ ("days_to" ∈ provided_params (parse_args cl)
        <-> days_to (parse_args cl) <> 2)
  /\ ("status_filter" ∈ provided_params (parse_args cl)
        <-> status_filter (parse_args cl) <> st_completed)
  /\ (forall p, p ∈ provided_params (parse_args cl) -> p ∈ pause_params).
Proof.
  intros Hact Hchanged. set (args := parse_args cl) in *.
  destruct (provided_params_names args) as (H1 & H2 & H3 & H4).
  assert (provided_params args <> []) as Hne.
  { intros Hnil. rewrite Hnil in H1, H2, H3, H4.
    destruct Hchanged as [H|[H|[H|H]]];
      [apply H1 in H|apply H2 in H|apply H3 in H|apply H4 in H];
      by apply elem_of_nil in H. }
  assert (run_try args w
          = (Raise (Exn ValueError
               ("The following parameters are not valid with 'resume' action: "
                ++ String.concat ", " (provided_params args))), w)) as Htry.
  { unfold main_try, validate_args.
    assert (action args = resume) as -> by exact Hact.
    destruct (provided_params args) as [|p ps]; [done|]. reflexivity. }
  split; [exact Htry|]. split.
  { rewrite main_of_try. fold args. by rewrite Htry. }
  repeat (split; [assumption|]).
  intros p Hp. by apply provided_params_spec in Hp as [? _].
Qed.

Lemma bind_ret {A B} (a : A) (k : A -> prog B) w : bind (ret a) k w = k a w.
Proof. reflexivity. Qed.

Lemma bind_get_world {B} (k : world -> prog B) w : bind get_world k w = k w w.
Proof. reflexivity. Qed.

(** The body of a pause run up to the first pause that fails. *)
Lemma pause_try_failure args w l pre t post e :
  action args = pause ->
  days_from args <= days_to args ->
  connect_error (server w) = None ->
  torrents_info (server w) (Some (status_filter args)) = Ok l ->
  value_of (filter_torrents l
              (timestamp_days_ago (time w) (days_from args))
              (timestamp_days_ago (time w) (days_to args))
              (cache_mount args) w)
  = Ok (pre ++ t :: post)%list ->
  Forall (fun u => pause_error (server w) (hash u) = None) pre ->
  pause_error (server w) (hash t) = Some e ->
  run_try args w
  = (Raise e,
     with_paused
       (add_events w
          ([Connect (host args) (user args) (password args);
            TorrentsInfo (Some (status_filter args))]
           ++ cache_stats (cache_mount args)
                (timestamp_days_ago (time w) (days_from args))
                (timestamp_days_ago (time w) (days_to args)) l
           ++ pause_calls (pre ++ [t])))
       (hashes_of pre ∪ paused w)).
Proof.
  intros Hact Hle Hconn Hinfo Hsel Hpre Ht.
  rewrite filter_torrents_run in Hsel. unfold value_of in Hsel. simpl in Hsel.
  injection Hsel as Hsel.
  unfold main_try, validate_args. rewrite Hact.
  rewrite bind_ret. erewrite bind_Raise; [reflexivity|].
  unfold pause_action.
  assert ((days_from args >? days_to args) = false) as -> by lia.
  rewrite bind_ret.
  erewrite bind_Ok; [|apply try_except_Ok; by rewrite Client_run, Hconn].
  rewrite bind_get_world.
  erewrite bind_Ok; [|by rewrite client_torrents_info_run; simpl; rewrite Hinfo].
  erewrite bind_Ok; [|apply filter_torrents_run].
  cbn [fs time server add_events]. rewrite Hsel.
  destruct (pre ++ t :: post)%list as [|x xs] eqn:Hsplit.
  { by destruct pre. }
  rewrite <- Hsplit.
  erewrite bind_Raise; [reflexivity|].
  rewrite (manage_torrents_pause_fails pre t post e) by done. f_equal.
  apply world_eq; simpl; try reflexivity.
  by rewrite <- !app_assoc.
Qed.

(** C9.  In a pause run whose selection is [pre ++ t :: post], with every
    pause of [pre] succeeding and the pause of [t] failing, the failure
    is the outcome of the run and the exit code is [1]: the pauses
    attempted are those of [pre] and of [t] and no other, the torrents of
    [pre] are paused, the filesystem is as it was and no state file was
    opened for writing. *)
Theorem pause_failure_aborts_run cl w l pre t post e :
  cl_action cl = pause ->
  days_from (parse_args cl) <= days_to (parse_args cl) ->
  connect_error (server w) = None ->
  torrents_info (server w) (Some (status_filter (parse_args cl))) = Ok l ->
  value_of (filter_torrents l
              (timestamp_days_ago (time w) (days_from (parse_args cl)))
              (timestamp_days_ago (time w) (days_to (parse_args cl)))
              (cache_mount (parse_args cl)) w)
  = Ok (pre ++ t :: post)%list ->
  Forall (fun u => pause_error (server w) (hash u) = None) pre ->
  pause_error (server w) (hash t) = Some e ->
  exists w' stats,
    run_try (parse_args cl) w = (Raise e, w')
    /\ run_main cl w = (1, w')
    /\ trace w'
       = (trace w
          ++ [Connect (host (parse_args cl)) (user (parse_args cl))
                (password (parse_args cl));
              TorrentsInfo (Some (status_filter (parse_args cl)))]
          ++ stats ++ pause_calls (pre ++ [t]))%list
    /\ Forall (fun ev => exists path, ev = Stat path) stats
    /\ fs w' = fs w
    /\ (OpenWrite (state_file (parse_args cl))
          ∉ (stats ++ pause_calls (pre ++ [t]))%list)
    /\ paused w' = hashes_of pre ∪ paused w.
Proof.
  intros Hact Hle Hconn Hinfo Hsel Hpre Ht.
  pose proof (pause_try_failure (parse_args cl) w l pre t post e
                Hact Hle Hconn Hinfo Hsel Hpre Ht) as Htry.
  eexists _, _. split; [exact Htry|]. split.
  { rewrite main_of_try. by rewrite Htry. }
  split; [reflexivity|].
  split.
  { unfold cache_stats. destruct (cache_filter_on _); [|constructor].
    apply Forall_forall. intros ev (u & -> & _)%list_elem_of_fmap. by eexists. }
  split; [reflexivity|]. split; [|reflexivity].
  intros [Hin|Hin]%elem_of_app.
  - unfold cache_stats in Hin. destruct (cache_filter_on _).
    + by apply list_elem_of_fmap in Hin as (u & ? & _).
    + by apply elem_of_nil in Hin.
  - by apply list_elem_of_fmap in Hin as (u & ? & _).
Qed.

(** The body of a resume run whose resumes succeed. *)
Lemma resume_try_success args w saved_state items snapshot :
  action args = resume ->
  provided_params args = [] ->
  value_of (load (state_file args) w) = Ok saved_state ->
  py_getitem saved_state "torrent_hashes" = Ok (JArr items) ->
  connect_error (server w) = None ->
  torrents_info (server w) None = Ok snapshot ->
  Forall (fun t => resume_error (server w) (hash t) = None)
    (List.filter (fun t => existsb (str_eq_json (hash t)) items) snapshot) ->
  exists f,
    run_try args w
    = (Ok tt,
       with_fs
         (with_paused
            (add_events w
               ([OpenRead (state_file args);
                 Connect (host args) (user args) (password args);
                 TorrentsInfo None]
                ++ resume_calls
                     (List.filter
                        (fun t => existsb (str_eq_json (hash t)) items) snapshot)
                ++ [Remove (state_file args)]))
            (paused w
             ∖ hashes_of
                 (List.filter
                    (fun t => existsb (str_eq_json (hash t)) items) snapshot)))
         f).
Proof.
  intros Hact Hvalid Hload Hget Hconn Hinfo Hres.
  set (batch := List.filter (fun t => existsb (str_eq_json (hash t)) items)
                  snapshot) in *.
  set (w1 := add_events w [OpenRead (state_file args)]).
  assert (load (state_file args) w = (Ok saved_state, w1)) as Hload'.
  { rewrite load_torrent_state_run in Hload |- *. unfold value_of in Hload.
    cbn [fst] in Hload. by rewrite Hload. }
  set (w2 := add_events (add_events w1 [Connect (host args) (user args)
                                          (password args)])
               [TorrentsInfo None]).
  set (w3 := with_paused (add_events w2 (resume_calls batch))
               (paused w ∖ hashes_of batch)).
  destruct (cleanup_run (state_file args) w3) as [f Hclean].
  exists f.
  unfold main_try, validate_args. rewrite Hact, Hvalid.
  rewrite !bind_ret. unfold resume_action.
  erewrite bind_Ok; [|exact Hload'].
  erewrite bind_Ok; [|apply try_except_Ok; by rewrite Client_run; unfold w1; cbn [server add_events]; rewrite Hconn].
  erewrite bind_Ok;
    [|by rewrite client_torrents_info_run; unfold w1; cbn [server add_events];
         rewrite Hinfo].
  erewrite bind_Ok; [|by apply saved_torrents_run].
  fold batch. fold w1. fold w2.
  assert (manage_torrents batch false w2 = (Ok tt, w3)) as Hmanage.
  { by rewrite manage_torrents_resume_all. }
  assert (match batch with
          | [] => ret tt
          | _ :: _ => manage_torrents batch false
          end w2 = (Ok tt, w3)) as Hstep.
  { destruct batch as [|b bs] eqn:Hbatch; [|exact Hmanage].
    rewrite <- Hmanage. reflexivity. }
  erewrite bind_Ok; [|exact Hstep].
  rewrite Hclean. f_equal. apply world_eq; simpl; try reflexivity.
  repeat rewrite <- app_assoc. reflexivity.
Qed.

(** C2.  In a resume run that loaded a state whose [torrent_hashes] is the
    list [items], the batch is the torrents of the current snapshot whose
    hash is in [items]: an identifier of [items] that no torrent of the
    snapshot carries is not resumed and raises nothing.  When the resumes
    of the batch succeed the exit code is [0], the calls made are the
    load, the connection, the listing, one resume per torrent of the
    batch, none when the batch is empty, and then the removal of the
    state file, whether the batch was empty or not. *)
Theorem resume_reconciles_with_snapshot cl w saved_state items snapshot :
  cl_action cl = resume ->
  provided_params (parse_args cl) = [] ->
  value_of (load (state_file (parse_args cl)) w) = Ok saved_state ->
  py_getitem saved_state "torrent_hashes" = Ok (JArr items) ->
  connect_error (server w) = None ->
  torrents_info (server w) None = Ok snapshot ->
  Forall (fun t => resume_error (server w) (hash t) = None)
    (List.filter (fun t => existsb (str_eq_json (hash t)) items) snapshot) ->
  exists w' batch,
    batch = List.filter (fun t => existsb (str_eq_json (hash t)) items) snapshot
    /\ run_main cl w = (0, w')
    /\ trace w'
       = (trace w
          ++ [OpenRead (state_file (parse_args cl));
              Connect (host (parse_args cl)) (user (parse_args cl))
                (password (parse_args cl));
              TorrentsInfo None]
          ++ resume_calls batch
          ++ [Remove (state_file (parse_args cl))])%list
    /\ (forall h, JStr h ∈ items -> h ∉ map hash snapshot ->
          ResumeCall h ∉ resume_calls batch)
    /\ (forall h, ResumeCall h ∈ resume_calls batch ->
          JStr h ∈ items /\ h ∈ map hash snapshot)
    /\ (batch = [] -> resume_calls batch = [])
    /\ paused w' = paused w ∖ hashes_of batch.
Proof.
  intros Hact Hvalid Hload Hget Hconn Hinfo Hres.
  destruct (resume_try_success (parse_args cl) w saved_state items snapshot
              Hact Hvalid Hload Hget Hconn Hinfo Hres) as [f Htry].
  eexists _, _. split; [reflexivity|]. split.
  { rewrite main_of_try. by rewrite Htry. }
  split; [reflexivity|].
  split.
  { intros h _ Habsent (u & [= ->] & Hu)%list_elem_of_fmap.
    apply Habsent. apply list_elem_of_fmap. exists u. split; [done|].
    by apply elem_of_filter_bool in Hu as [? _]. }
  split.
  { intros h (u & [= ->] & [Hu Hfound]%elem_of_filter_bool)%list_elem_of_fmap.
    split.
    - apply existsb_exists in Hfound as (v & Hv & Heq).
      destruct v; try discriminate. simpl in Heq.
      apply String.eqb_eq in Heq as ->. by apply list_elem_of_In.
    - apply list_elem_of_fmap. by exists u. }
  split; [by intros ->|reflexivity].
Qed.

End Phases.

(** ** The sample runs *)

(** Scenario D: [--days-from 5 --days-to 2]. *)
Lemma pause_rejects_days_from_above_days_to_witness :
  main JsonText.dumps JsonText.loads id
    (Sample.with_days (Sample.command pause) (Some 5) (Some 2)) Sample.start
  = (1, Sample.start).
Proof.
  apply (pause_rejects_days_from_above_days_to JsonText.dumps JsonText.loads id
           (Sample.with_days (Sample.command pause) (Some 5) (Some 2))
           Sample.start); [reflexivity|reflexivity].
Defined.

(** C7, as stated, fails: a resume run given [--days-to 2], the value of
    the default, passes the validation and runs to the end. *)
Lemma resume_accepts_default_valued_flag :
  cl_action (Sample.with_days (Sample.command resume) None (Some 2)) = resume
  /\ cl_days_to (Sample.with_days (Sample.command resume) None (Some 2))
     = Some 2
  /\ validate_args
       (parse_args (Sample.with_days (Sample.command resume) None (Some 2)))
       Sample.saved_world
     = (Ok tt, Sample.saved_world)
  /\ fst (main JsonText.dumps JsonText.loads id
            (Sample.with_days (Sample.command resume) None (Some 2))
            Sample.saved_world) = 0.
Proof.
  split; [reflexivity|]. split; [reflexivity|]. split; [reflexivity|].
  vm_compute. reflexivity.
Qed.

Lemma resume_rejects_changed_pause_params_witness :
  main JsonText.dumps JsonText.loads id
    (Sample.with_days (Sample.command resume) None (Some 3)) Sample.saved_world
  = (1, Sample.saved_world)
  /\ provided_params
       (parse_args (Sample.with_days (Sample.command resume) None (Some 3)))
     = ["days_to"].
Proof.
  split; [|reflexivity].
  apply (resume_rejects_changed_pause_params JsonText.dumps JsonText.loads id
           (Sample.with_days (Sample.command resume) None (Some 3))
           Sample.saved_world); [reflexivity|].
  right. right. left. discriminate.
Defined.

(** The pause of the torrent added three days ago fails: the one added a
    day ago stays paused and nothing is saved. *)
Lemma pause_failure_aborts_run_witness :
  exists w',
    main JsonText.dumps JsonText.loads id
      (Sample.with_days (Sample.command pause) (Some 0) (Some 4))
      Sample.stubborn_world = (1, w')
    /\ fs w' = Sample.disk
    /\ paused w' = hashes_of [Sample.one] ∪ ∅.
Proof.
  destruct (pause_failure_aborts_run JsonText.dumps JsonText.loads id
              (Sample.with_days (Sample.command pause) (Some 0) (Some 4))
              Sample.stubborn_world Sample.torrents [Sample.one] Sample.three
              [] (Exn OtherException "Conflict"))
    as (w' & stats & _ & Hmain & _ & _ & Hfs & _ & Hpaused).
  - reflexivity.
  - vm_compute. discriminate.
  - reflexivity.
  - reflexivity.
  - reflexivity.
  - repeat constructor.
  - reflexivity.
  - exists w'. split; [exact Hmain|]. split; [exact Hfs|exact Hpaused].
Defined.

(** Scenario C: the state names [H1] and [H9], the client still has [H1]:
    only [H1] is resumed and the state file is removed. *)
Lemma resume_reconciles_with_snapshot_witness :
  exists w',
    main JsonText.dumps JsonText.loads id (Sample.command resume)
      Sample.saved_world = (0, w')
    /\ trace w'
       = [OpenRead Sample.state_path;
          Connect "localhost:8080" "admin" "adminadmin";
          TorrentsInfo None;
          ResumeCall "H1";
          Remove Sample.state_path].
Proof.
  destruct (resume_reconciles_with_snapshot JsonText.dumps JsonText.loads id
              (Sample.command resume) Sample.saved_world
              (state_of [Sample.one; Sample.gone]
                 (now_isoformat Sample.wall_clock))
              [JStr "H1"; JStr "H9"] Sample.torrents)
    as (w' & batch & Hbatch & Hmain & Htrace & _).
  - reflexivity.
  - reflexivity.
  - vm_compute. reflexivity.
  - reflexivity.
  - reflexivity.
  - reflexivity.
  - repeat constructor.
  - exists w'. split; [exact Hmain|]. rewrite Htrace, Hbatch. reflexivity.
Defined.

(** * Further properties of the script *)

(** ** Validation *)

(** X1.  The validation rejects a run exactly when it is a resume run in
    which a pause-only parameter has a value other than its default; a
    pause run, and a resume run with the defaults, pass.  It raises
    nothing but [ValueError] and leaves the world as it is. *)
Theorem validate_args_passes_iff args w :
  (validate_args args w = (Ok tt, w)
   <-> action args = pause
       \/ (cache_mount args = None /\ days_from args = 0
           /\ days_to args = 2 /\ status_filter args = st_completed))
  /\ world_of (validate_args args w) = w
  /\ (forall e, value_of (validate_args args w) = Raise e ->
        exn_kind e = ValueError /\ action args = resume).
Proof.
  destruct (provided_params_names args) as (H1 & H2 & H3 & H4).
  unfold validate_args. destruct (action args) eqn:Hact.
  { split; [|split]; [split; [by left|done]|done|discriminate]. }
  destruct (provided_params args) as [|p ps] eqn:Hprov.
  - split; [|split]; [|done|discriminate].
    split; [intros _; right|done].
    repeat split.
    + destruct (cache_mount args); [|done]. exfalso.
      assert ("cache_mount" ∈ @nil string) as Hin by (by apply H1).
      by apply elem_of_nil in Hin.
    + destruct (decide (days_from args = 0)) as [|Hne]; [done|].
      apply H2 in Hne. by apply elem_of_nil in Hne.
    + destruct (decide (days_to args = 2)) as [|Hne]; [done|].
      apply H3 in Hne. by apply elem_of_nil in Hne.
    + destruct (status_filter args) eqn:Hst; try done;
        (assert ("status_filter" ∈ @nil string) as Hin
           by (by apply H4); by apply elem_of_nil in Hin).
  - split; [|split]; [|done|by intros e [= <-]].
    split; [discriminate|]. intros [|(Hc & Hf & Ht & Hs)]; [done|]. exfalso.
    assert (p ∈ provided_params args) as Hp by (rewrite Hprov; left).
    apply provided_params_spec in Hp as [Hp Hne]. apply Hne.
    unfold pause_params in Hp.
    repeat (apply elem_of_cons in Hp as [->|Hp]);
      [| | | |by apply elem_of_nil in Hp];
      unfold getattr, get_default; simpl; by rewrite ?Hc, ?Hf, ?Ht, ?Hs.
Qed.

(** ** The cache path *)

Lemma prefix_append (a b : string) : String.prefix a (a ++ b) = true.
Proof.
  induction a as [|c a IH]; [by destruct b|].
  change (String c a ++ b)%string with (String c (a ++ b)). simpl.
  by destruct (ascii_dec c c).
Qed.

Lemma lstrip_slash_no_slash p : starts_with_slash (lstrip_slash p) = false.
Proof.
  induction p as [|c p IH]; [done|].
  destruct (Ascii.eqb_spec c "/"%char) as [->|Hne]; [exact IH|].
  assert (lstrip_slash (String c p) = String c p) as ->.
  { destruct c as [[] [] [] [] [] [] [] []]; try reflexivity. by destruct Hne. }
  destruct c as [[] [] [] [] [] [] [] []]; try reflexivity. by destruct Hne.
Qed.

(** X2.  The path tested for a torrent is the cache mount followed by
    the content path without its leading slashes, with one separator put
    between them unless the mount is empty or ends with one.  It always
    lies under the mount, also for an absolute content path, which
    [os.path.join] alone would return unchanged, dropping the mount; and
    leading slashes of the content path make no difference. *)
Theorem cache_path_under_mount m t :
  cache_path m t
  = (m ++ (if String.eqb m "" || ends_with_slash m then "" else "/")
     ++ lstrip_slash (content_path t))%string
  /\ String.prefix m (cache_path m t) = true
  /\ (forall p, os_path_join m (String "/"%char p) = String "/"%char p)
  /\ (forall t', lstrip_slash (content_path t') = lstrip_slash (content_path t) ->
        cache_path m t' = cache_path m t).
Proof.
  assert (cache_path m t
          = (m ++ (if String.eqb m "" || ends_with_slash m then "" else "/")
             ++ lstrip_slash (content_path t))%string) as Heq.
  { unfold cache_path, os_path_join.
    rewrite lstrip_slash_no_slash.
    by destruct (String.eqb m "" || ends_with_slash m). }
  split; [exact Heq|]. split; [rewrite Heq; apply prefix_append|].
  split; [done|]. intros t' Ht'. unfold cache_path. by rewrite Ht'.
Qed.

(** ** More on the selection *)

Lemma before_break_all_kept timeoffset_to l :
  Forall (fun t => older timeoffset_to t = false) l ->
  before_break timeoffset_to l = l.
Proof.
  induction 1 as [|t l Ht _ IH]; [done|]. simpl. by rewrite Ht, IH.
Qed.

Lemma in_window_not_older timeoffset_from timeoffset_to t :
  in_window timeoffset_from timeoffset_to t = true ->
  older timeoffset_to t = false.
Proof.
  intros Hwin. destruct (older timeoffset_to t) eqn:Hold; [|done].
  apply (older_not_in_window timeoffset_from) in Hold. congruence.
Qed.

Lemma filter_bool_idemp {A} (p : A -> bool) (l : list A) :
  List.filter p (List.filter p l) = List.filter p l.
Proof.
  induction l as [|x l IH]; [done|]. simpl.
  destruct (p x) eqn:Hp; [|done]. simpl. by rewrite Hp, IH.
Qed.

(** X3.  Selecting again from a selection changes nothing: with the same
    window, cache mount and filesystem, the selection of the result is
    the result. *)
Theorem filter_torrents_idempotent l timeoffset_from timeoffset_to cache_mount w out :
  value_of (filter_torrents l timeoffset_from timeoffset_to cache_mount w)
  = Ok out ->
  value_of (filter_torrents out timeoffset_from timeoffset_to cache_mount w)
  = Ok out.
Proof.
  rewrite !filter_torrents_run. unfold value_of. cbn [fst]. intros [= <-].
  f_equal. rewrite before_break_all_kept.
  - apply filter_bool_idemp.
  - apply Forall_forall. intros t [_ Ht]%elem_of_filter_bool.
    apply andb_true_iff in Ht as [Ht _].
    by apply (in_window_not_older timeoffset_from).
Qed.

Lemma older_mono to to' t :
  (to' <= to)%Q -> older to' t = true -> older to t = true.
Proof.
  intros Hle. rewrite !older_spec. intros Hlt.
  by apply (Qlt_le_trans _ to').
Qed.

Lemma in_window_mono from to from' to' t :
  (to' <= to)%Q -> (from <= from')%Q ->
  in_window from to t = true -> in_window from' to' t = true.
Proof.
  intros Hto Hfrom. rewrite !in_window_spec. intros [H1 H2]. split.
  - by apply (Qle_trans _ to).
  - by apply (Qle_trans _ from).
Qed.

(** X4.  Widening the window never loses a torrent: when the older bound
    moves back and the newer bound moves forward, the former selection is
    a subsequence of the new one, on every list and with every cache
    mount. *)
Theorem filter_torrents_window_monotone
    l timeoffset_from timeoffset_to from' to' cache_mount w :
  (to' <= timeoffset_to)%Q -> (timeoffset_from <= from')%Q ->
  exists out out',
    value_of (filter_torrents l timeoffset_from timeoffset_to cache_mount w)
    = Ok out
    /\ value_of (filter_torrents l from' to' cache_mount w) = Ok out'
    /\ out `sublist_of` out'.
Proof.
  intros Hto Hfrom. eexists _, _.
  rewrite !filter_torrents_run. unfold value_of. cbn [fst].
  split; [reflexivity|]. split; [reflexivity|].
  induction l as [|t l IH]; [done|]. simpl.
  destruct (older timeoffset_to t) eqn:Hold.
  { apply sublist_nil_l. }
  assert (older to' t = false) as Hold'.
  { destruct (older to' t) eqn:E; [|done].
    apply (older_mono timeoffset_to) in E; [congruence|done]. }
  rewrite Hold'. simpl.
  destruct (in_window timeoffset_from timeoffset_to t) eqn:Hwin.
  - rewrite (in_window_mono _ _ from' to' t Hto Hfrom Hwin). simpl.
    destruct (on_cache (fs w) cache_mount t); [by constructor|done].
  - simpl. destruct (in_window from' to' t && on_cache (fs w) cache_mount t);
      [by constructor|done].
Qed.

(** X5.  The selection only looks: the filesystem, the server and the set
    of paused torrents are as before, and the calls made are [os.stat]
    calls, one per torrent of the window that the loop reaches when a
    non-empty cache mount is given, and none at all otherwise. *)
Theorem filter_torrents_only_stats l timeoffset_from timeoffset_to cache_mount w :
  exists stats,
    world_of (filter_torrents l timeoffset_from timeoffset_to cache_mount w)
    = add_events w stats
    /\ Forall (fun ev => exists path, ev = Stat path) stats
    /\ (cache_mount = None \/ cache_mount = Some "" -> stats = [])
    /\ (forall m, cache_mount = Some m -> m <> "" ->
          stats = map (fun t => Stat (cache_path m t))
                    (List.filter (in_window timeoffset_from timeoffset_to)
                       (before_break timeoffset_to l)))
    /\ fs (world_of (filter_torrents l timeoffset_from timeoffset_to
                       cache_mount w)) = fs w
    /\ paused (world_of (filter_torrents l timeoffset_from timeoffset_to
                           cache_mount w)) = paused w.
Proof.
  exists (cache_stats cache_mount timeoffset_from timeoffset_to l).
  rewrite filter_torrents_run. unfold world_of. cbn [snd].
  split; [done|]. split.
  { unfold cache_stats. destruct (cache_filter_on _); [|constructor].
    apply Forall_forall. intros ev (u & -> & _)%list_elem_of_fmap. by eexists. }
  split.
  { intros [-> | ->]; reflexivity. }
  split; [|done].
  intros m -> Hm. unfold cache_stats. by rewrite cache_filter_on_Some.
Qed.

Lemma before_break_app_older timeoffset_to l1 t l2 :
  older timeoffset_to t = true ->
  before_break timeoffset_to (l1 ++ t :: l2) = before_break timeoffset_to l1.
Proof.
  intros Hold. induction l1 as [|u l1 IH]; simpl; [by rewrite Hold|].
  destruct (older timeoffset_to u); [done|]. by rewrite IH.
Qed.

(** X6.  The loop stops at the first torrent older than the window:
    that torrent and everything after it in the list are ignored, in the
    result and in the existence tests made, whatever their times and
    paths are. *)
Theorem filter_torrents_ignores_after_older
    l1 t l2 timeoffset_from timeoffset_to cache_mount w :
  older timeoffset_to t = true ->
  filter_torrents (l1 ++ t :: l2) timeoffset_from timeoffset_to cache_mount w
  = filter_torrents l1 timeoffset_from timeoffset_to cache_mount w.
Proof.
  intros Hold. rewrite !filter_torrents_run. unfold cache_stats.
  by rewrite (before_break_app_older _ _ _ _ Hold).
Qed.

(** ** More on the state file *)

Section StateFileRuns.

Variable json_dumps : json -> string.
Variable json_loads : string -> option json.
Variable os_path_abspath : string -> string.

Local Abbreviation save := (save_torrent_state json_dumps os_path_abspath).
Local Abbreviation load := (load_torrent_state json_loads).
Local Abbreviation state_dir p := (os_path_dirname (os_path_abspath p)).

(** What [save_torrent_state] does, by the state of the directory and of
    the path. *)
Lemma save_torrent_state_run torrents state_file w :
  save torrents state_file w
  = if negb (present (fs w) (state_dir state_file)) then
      (Raise (Exn RuntimeError
                ("Failed to save state file: "
                 ++ "Directory does not exist: " ++ state_dir state_file)),
       add_events w [Stat (state_dir state_file)])
    else if negb (writable (fs w) (state_dir state_file)) then
      (Raise (Exn RuntimeError
                ("Failed to save state file: "
                 ++ "Directory is not writable: " ++ state_dir state_file)),
       add_events w [Stat (state_dir state_file);
                     Access (state_dir state_file)])
    else if openable (fs w) state_file then
      (Ok tt,
       with_fs (add_events w [Stat (state_dir state_file);
                              Access (state_dir state_file);
                              OpenWrite state_file])
         (<[state_file :=
              File (json_dumps (state_of torrents (now_isoformat (time w))))]>
            (fs w)))
    else
      (Raise (Exn RuntimeError ("Failed to save state file: " ++ state_file)),
       add_events w [Stat (state_dir state_file);
                     Access (state_dir state_file);
                     OpenWrite state_file]).
Proof.
  unfold save_torrent_state, bind, try_except, get_world.
  rewrite os_path_exists_run.
  destruct (present (fs w) _) eqn:Hdir; cbn [negb]; [|reflexivity].
  unfold os_access_W_OK, bind, emit, get_world, ret, writable. cbn [fs add_events].
  destruct (match fs w !! os_path_dirname (os_path_abspath state_file) with
            | Some (File _) => true
            | Some (Dir w0) => w0
            | _ => false
            end) eqn:Hw; cbn [negb];
    [|unfold raise, add_events; cbn; rewrite <- ?app_assoc; reflexivity].
  rewrite open_write_run. unfold openable. cbn [fs add_events].
  destruct (fs w !! state_file) as [[c|d|]|]; cbn;
    unfold with_fs, add_events; cbn; rewrite <- ?app_assoc; reflexivity.
Qed.



(** X8.  The directory of the state file is checked before the file is
    opened: when it does not exist, or exists and is not writable, the
    save fails with a message that tells the two cases apart and names
    the directory, without an attempt to open the file. *)
Theorem save_checks_directory_first torrents state_file w :
  (present (fs w) (state_dir state_file) = false ->
   save torrents state_file w
   = (Raise (Exn RuntimeError
               ("Failed to save state file: Directory does not exist: "
                ++ state_dir state_file)),
      add_events w [Stat (state_dir state_file)]))
  /\ (present (fs w) (state_dir state_file) = true ->
      writable (fs w) (state_dir state_file) = false ->
      save torrents state_file w
      = (Raise (Exn RuntimeError
                  ("Failed to save state file: Directory is not writable: "
                   ++ state_dir state_file)),
         add_events w [Stat (state_dir state_file);
                       Access (state_dir state_file)])).
Proof.
  split.
  - intros Hdir. rewrite save_torrent_state_run, Hdir. reflexivity.
  - intros Hdir Hw. rewrite save_torrent_state_run, Hdir, Hw. reflexivity.
Qed.


(** X10.  A load reads and does nothing else, and what it raises is a
    [RuntimeError], a [ValueError] or a [TypeError]: a missing file, a
    directory, a path out of reach and a text that is not JSON all come
    out as [RuntimeError]. *)
Theorem load_failure_kinds state_file w :
  world_of (load state_file w) = add_events w [OpenRead state_file]
  /\ (forall e, value_of (load state_file w) = Raise e ->
        exn_kind e = RuntimeError \/ exn_kind e = ValueError
        \/ exn_kind e = TypeError)
  /\ (fs w !! state_file = None
      \/ (exists d, fs w !! state_file = Some (Dir d))
      \/ fs w !! state_file = Some Inaccessible
      \/ (exists text, fs w !! state_file = Some (File text)
                       /\ json_loads text = None) ->
      exists e, value_of (load state_file w) = Raise e
                /\ exn_kind e = RuntimeError).
Proof.
  rewrite load_torrent_state_run. unfold value_of, world_of. cbn [fst snd].
  split; [done|]. split.
  - intros e. destruct (fs w !! state_file) as [[text|d|]|];
      [|intros [= <-]; by left..].
    destruct (json_loads text) as [state|]; [|intros [= <-]; by left].
    destruct (all_in required_keys state) as [[|]|e'] eqn:Hall;
      [discriminate|intros [= <-]; right; by left|].
    intros [= <-]. right. right. by eapply all_in_required_raise.
  - intros [->|[[d ->]|[->|(text & -> & ->)]]]; by eexists.
Qed.


(** X11.  The required-keys test assumes a container.  A state file whose
    JSON text is [null], a boolean or a number makes the load raise
    [TypeError], which none of its handlers catches. *)
Theorem load_scalar_raises_TypeError state_file text v w :
  fs w !! state_file = Some (File text) ->
  json_loads text = Some v ->
  v = JNull \/ (exists b, v = JBool b) \/ (exists n, v = JNum n) ->
  exists e, load state_file w = (Raise e, add_events w [OpenRead state_file])
            /\ exn_kind e = TypeError.
Proof.
  intros Hfs Hjson Hv. rewrite load_torrent_state_run, Hfs, Hjson.
  destruct Hv as [->|[[b ->]|[n ->]]]; by eexists.
Qed.

(** X12.  For a state file holding a JSON object the load returns the
    object exactly when it has the members [torrent_hashes] and
    [timestamp], and raises [ValueError] otherwise.  Nothing else is
    looked at: further members are kept, [version] is not required and
    the values are not checked. *)
Theorem load_object_iff state_file text members w :
  fs w !! state_file = Some (File text) ->
  json_loads text = Some (JObj members) ->
  (is_Some (dict_get members "torrent_hashes")
   /\ is_Some (dict_get members "timestamp")
   -> value_of (load state_file w) = Ok (JObj members))
  /\ (dict_get members "torrent_hashes" = None
      \/ dict_get members "timestamp" = None
      -> value_of (load state_file w)
         = Raise (Exn ValueError "State file is missing required fields")).
Proof.
  intros Hfs Hjson. rewrite load_torrent_state_run, Hfs, Hjson.
  unfold value_of. cbn [fst]. unfold required_keys, all_in, py_in. split.
  - intros [H1 H2].
    rewrite <- not_eq_None_Some, dict_get_None in H1, H2.
    apply not_false_is_true in H1, H2. by rewrite H1, H2.
  - intros [H|H]; apply dict_get_None in H; rewrite H; [done|].
    match goal with |- context [if ?b then _ else _] => destruct b end;
      reflexivity.
Qed.

End StateFileRuns.

(** ** More on the batches *)

(** A batch of resumes whose first failure is at [t]. *)
Lemma manage_torrents_resume_fails pre t post e : forall w,
  Forall (fun u => resume_error (server w) (hash u) = None) pre ->
  resume_error (server w) (hash t) = Some e ->
  manage_torrents (pre ++ t :: post) false w
  = (Raise e, with_paused (add_events w (resume_calls (pre ++ [t])))
                (paused w ∖ hashes_of pre)).
Proof.
  induction pre as [|u pre IH]; intros w Hall Ht.
  - simpl. erewrite bind_Raise; [|by rewrite torrent_resume_run, Ht].
    f_equal. apply world_eq; simpl; try done.
    unfold hashes_of. simpl. set_solver.
  - apply Forall_cons in Hall as [Hu Hall]. simpl.
    erewrite bind_Ok; [|by rewrite torrent_resume_run, Hu].
    rewrite IH by done. f_equal. apply world_eq; simpl; try done.
    + unfold hashes_of. simpl. set_solver.
    + by rewrite <- app_assoc.
Qed.


Lemma existsb_str_eq_json h items :
  existsb (str_eq_json h) items = true <-> JStr h ∈ items.
Proof.
  rewrite existsb_exists. split.
  - intros (v & Hv & Heq). destruct v; try discriminate.
    apply String.eqb_eq in Heq as ->. by apply list_elem_of_In.
  - intros Hin. exists (JStr h). split; [by apply list_elem_of_In|].
    apply String.eqb_refl.
Qed.

(** X14.  The batch of a resume run depends only on which strings the
    saved list holds: it is the torrents of the snapshot whose hash is
    one of them, in the order of the snapshot.  The order of the saved
    list, repetitions in it and entries that are not strings make no
    difference, and nothing is read from the filesystem or sent to the
    client to build it. *)
Theorem saved_torrents_by_membership saved_state items snapshot w :
  py_getitem saved_state "torrent_hashes" = Ok (JArr items) ->
  exists batch,
    saved_torrents saved_state snapshot w = (Ok batch, w)
    /\ batch `sublist_of` snapshot
    /\ (forall t, t ∈ batch <-> t ∈ snapshot /\ JStr (hash t) ∈ items)
    /\ (forall saved_state' items',
          py_getitem saved_state' "torrent_hashes" = Ok (JArr items') ->
          (forall h, JStr h ∈ items <-> JStr h ∈ items') ->
          saved_torrents saved_state' snapshot w = (Ok batch, w)).
Proof.
  intros Hget. eexists. split; [by apply saved_torrents_run|].
  split; [apply filter_bool_sublist|]. split.
  - intros t. by rewrite elem_of_filter_bool, existsb_str_eq_json.
  - intros saved_state' items' Hget' Hsame.
    rewrite (saved_torrents_run _ _ _ _ Hget'). f_equal. f_equal.
    apply filter_ext. intros t.
    apply eq_true_iff_eq. by rewrite !existsb_str_eq_json.
Qed.

(** ** More on the two phases *)

Lemma bind_ret_r (m : prog unit) w : bind m (fun _ => ret tt) w = m w.
Proof. unfold bind, ret. by destruct (m w) as [[[]|e] w']. Qed.

Section Runs.

Variable json_dumps : json -> string.
Variable json_loads : string -> option json.
Variable os_path_abspath : string -> string.

Local Abbreviation run_try := (main_try json_dumps json_loads os_path_abspath).
Local Abbreviation run_main := (main json_dumps json_loads os_path_abspath).
Local Abbreviation save := (save_torrent_state json_dumps os_path_abspath).
Local Abbreviation load := (load_torrent_state json_loads).
Local Abbreviation state_dir p := (os_path_dirname (os_path_abspath p)).

Lemma main_try_pause args w :
  action args = pause ->
  run_try args w = pause_action json_dumps os_path_abspath args w.
Proof.
  intros Hact. unfold main_try, validate_args. rewrite Hact.
  rewrite bind_ret. apply bind_ret_r.
Qed.

Lemma main_try_resume args w :
  action args = resume ->
  provided_params args = [] ->
  run_try args w = resume_action json_loads args w.
Proof.
  intros Hact Hvalid. unfold main_try, validate_args. rewrite Hact, Hvalid.
  by rewrite !bind_ret.
Qed.

(** The selection of a pause run and the events up to it. *)
Lemma pause_action_run args w l :
  days_from args <= days_to args ->
  connect_error (server w) = None ->
  torrents_info (server w) (Some (status_filter args)) = Ok l ->
  pause_action json_dumps os_path_abspath args w
  = match List.filter
            (fun t =>
               in_window (timestamp_days_ago (time w) (days_from args))
                 (timestamp_days_ago (time w) (days_to args)) t
               && on_cache (fs w) (cache_mount args) t)
            (before_break (timestamp_days_ago (time w) (days_to args)) l)
    with
    | [] => ret tt
    | torrents =>
        bind (manage_torrents torrents true)
          (fun _ => save torrents (state_file args))
    end
      (add_events w
         ([Connect (host args) (user args) (password args);
           TorrentsInfo (Some (status_filter args))]
          ++ cache_stats (cache_mount args)
               (timestamp_days_ago (time w) (days_from args))
               (timestamp_days_ago (time w) (days_to args)) l)).
Proof.
  intros Hle Hconn Hinfo. unfold pause_action.
  assert ((days_from args >? days_to args) = false) as -> by lia.
  rewrite bind_ret.
  erewrite bind_Ok; [|apply try_except_Ok; by rewrite Client_run, Hconn].
  rewrite bind_get_world.
  erewrite bind_Ok; [|by rewrite client_torrents_info_run; simpl; rewrite Hinfo].
  erewrite bind_Ok; [|apply filter_torrents_run].
  cbn [fs time server add_events]. rewrite !add_events_app.
  by destruct (List.filter _ _).
Qed.


Lemma selection_of l timeoffset_from timeoffset_to cache_mount w sel :
  value_of (filter_torrents l timeoffset_from timeoffset_to cache_mount w)
  = Ok sel ->
  List.filter (fun t => in_window timeoffset_from timeoffset_to t
                        && on_cache (fs w) cache_mount t)
    (before_break timeoffset_to l) = sel.
Proof. rewrite filter_torrents_run. unfold value_of. by intros [= ->]. Qed.

Lemma cache_stats_are_stats cache_mount timeoffset_from timeoffset_to l :
  Forall (fun ev => exists path, ev = Stat path)
    (cache_stats cache_mount timeoffset_from timeoffset_to l).
Proof.
  unfold cache_stats. destruct (cache_filter_on _); [|constructor].
  apply Forall_forall. intros ev (u & -> & _)%list_elem_of_fmap. by eexists.
Qed.

(** X15.  A pause run whose selection is empty ends with exit code [0]
    after the connection, the listing and the existence tests of the
    selection: no torrent is paused and no state file is written, so a
    state file left at the path stays as it is. *)
Theorem pause_nothing_matched cl w l :
  cl_action cl = pause ->
  days_from (parse_args cl) <= days_to (parse_args cl) ->
  connect_error (server w) = None ->
  torrents_info (server w) (Some (status_filter (parse_args cl))) = Ok l ->
  value_of (filter_torrents l
              (timestamp_days_ago (time w) (days_from (parse_args cl)))
              (timestamp_days_ago (time w) (days_to (parse_args cl)))
              (cache_mount (parse_args cl)) w) = Ok [] ->
  exists stats,
    run_main cl w
    = (0, add_events w
            ([Connect (host (parse_args cl)) (user (parse_args cl))
                (password (parse_args cl));
              TorrentsInfo (Some (status_filter (parse_args cl)))] ++ stats))
    /\ Forall (fun ev => exists path, ev = Stat path) stats.
Proof.
  intros Hact Hle Hconn Hinfo Hsel. apply selection_of in Hsel.
  eexists. split; [|apply cache_stats_are_stats].
  rewrite main_of_try, (main_try_pause (parse_args cl) w Hact).
  rewrite (pause_action_run _ _ l Hle Hconn Hinfo), Hsel. reflexivity.
Qed.

(** The pauses and the save of a pause run with a selection. *)
Lemma pause_action_selected args w l sel :
  days_from args <= days_to args ->
  connect_error (server w) = None ->
  torrents_info (server w) (Some (status_filter args)) = Ok l ->
  value_of (filter_torrents l
              (timestamp_days_ago (time w) (days_from args))
              (timestamp_days_ago (time w) (days_to args))
              (cache_mount args) w) = Ok sel ->
  sel <> [] ->
  Forall (fun t => pause_error (server w) (hash t) = None) sel ->
  pause_action json_dumps os_path_abspath args w
  = save sel (state_file args)
      (with_paused
         (add_events w
            ([Connect (host args) (user args) (password args);
              TorrentsInfo (Some (status_filter args))]
             ++ cache_stats (cache_mount args)
                  (timestamp_days_ago (time w) (days_from args))
                  (timestamp_days_ago (time w) (days_to args)) l
             ++ pause_calls sel))
         (hashes_of sel ∪ paused w)).
Proof.
  intros Hle Hconn Hinfo Hsel Hne Hpause. apply selection_of in Hsel.
  rewrite (pause_action_run _ _ l Hle Hconn Hinfo), Hsel.
  destruct sel as [|t sel']; [done|].
  erewrite bind_Ok; [|by apply manage_torrents_pause_all].
  f_equal. apply world_eq; cbn [fs server time paused trace with_paused add_events];
    try reflexivity.
  by rewrite <- !app_assoc.
Qed.


(** X17.  The state file is written after the pauses.  When the pauses
    of a pause run succeed and the state file cannot be written, the run
    ends with exit code [1] and a [RuntimeError]: the selected torrents
    stay paused and no state records them, the files being as before. *)
Theorem pause_run_save_failure cl w l sel :
  cl_action cl = pause ->
  days_from (parse_args cl) <= days_to (parse_args cl) ->
  connect_error (server w) = None ->
  torrents_info (server w) (Some (status_filter (parse_args cl))) = Ok l ->
  value_of (filter_torrents l
              (timestamp_days_ago (time w) (days_from (parse_args cl)))
              (timestamp_days_ago (time w) (days_to (parse_args cl)))
              (cache_mount (parse_args cl)) w) = Ok sel ->
  sel <> [] ->
  Forall (fun t => pause_error (server w) (hash t) = None) sel ->
  present (fs w) (state_dir (state_file (parse_args cl))) = false
  \/ writable (fs w) (state_dir (state_file (parse_args cl))) = false
  \/ openable (fs w) (state_file (parse_args cl)) = false ->
  exists w' e,
    run_main cl w = (1, w')
    /\ run_try (parse_args cl) w = (Raise e, w')
    /\ exn_kind e = RuntimeError
    /\ fs w' = fs w
    /\ paused w' = hashes_of sel ∪ paused w.
Proof.
  intros Hact Hle Hconn Hinfo Hsel Hne Hpause Hbad.
  assert (exists w' e,
            run_try (parse_args cl) w = (Raise e, w')
            /\ exn_kind e = RuntimeError /\ fs w' = fs w
            /\ paused w' = hashes_of sel ∪ paused w)
    as (w' & e & Htry & Hkind & Hfs & Hpaused).
  { rewrite (main_try_pause (parse_args cl) w Hact).
    rewrite (pause_action_selected _ _ l sel) by done.
    rewrite save_torrent_state_run. cbn [fs with_paused add_events].
    destruct (present _ _); cbn [negb]; [|by eexists _, _].
    destruct (writable _ _); cbn [negb]; [|by eexists _, _].
    destruct (openable _ _); [|by eexists _, _].
    by destruct Hbad as [?|[?|?]]. }
  exists w', e. split; [|done].
  rewrite main_of_try. by rewrite Htry.
Qed.

(** X18.  When the client cannot be built a pause run ends at once with
    exit code [1] and a [RuntimeError]: a refused login and a failed
    connection each have their own fixed message, any other failure is
    reported with its text; the server is asked nothing further and no
    file is touched. *)
Theorem pause_connection_failure cl w e :
  cl_action cl = pause ->
  days_from (parse_args cl) <= days_to (parse_args cl) ->
  connect_error (server w) = Some e ->
  run_main cl w
  = (1, add_events w [Connect (host (parse_args cl)) (user (parse_args cl))
                        (password (parse_args cl))])
  /\ value_of (run_try (parse_args cl) w)
     = Raise (Exn RuntimeError
                match exn_kind e with
                | LoginFailed =>
                    "qBittorrent Error: Failed to login. Invalid username/password."
                | APIConnectionError =>
                    "qBittorrent Error: Unable to connect to the client."
                | _ =>
                    "qBittorrent Error: Unable to connect to the client. "
                    ++ exn_msg e
                end).
Proof.
  intros Hact Hle Hconn.
  assert (run_try (parse_args cl) w
          = (Raise (Exn RuntimeError
                match exn_kind e with
                | LoginFailed =>
                    "qBittorrent Error: Failed to login. Invalid username/password."
                | APIConnectionError =>
                    "qBittorrent Error: Unable to connect to the client."
                | _ =>
                    "qBittorrent Error: Unable to connect to the client. "
                    ++ exn_msg e
                end),
             add_events w [Connect (host (parse_args cl)) (user (parse_args cl))
                             (password (parse_args cl))])) as Htry.
  { rewrite (main_try_pause (parse_args cl) w Hact). unfold pause_action.
    assert ((days_from (parse_args cl) >? days_to (parse_args cl)) = false)
      as -> by lia.
    rewrite bind_ret. erewrite bind_Raise; [reflexivity|].
    unfold try_except. rewrite Client_run, Hconn.
    by destruct (exn_kind e). }
  split; [|by rewrite Htry].
  rewrite main_of_try. by rewrite Htry.
Qed.


(** The steps of a resume run after the load. *)
Lemma resume_action_loaded args w saved_state :
  value_of (load (state_file args) w) = Ok saved_state ->
  resume_action json_loads args w
  = bind (try_except (Client (host args) (user args) (password args))
            (fun e =>
               raise RuntimeError
                 ("Failed to connect to qBittorrent: " ++ exn_msg e)))
      (fun _ =>
         snapshot <- client_torrents_info None ;;
         torrents <- saved_torrents saved_state snapshot ;;
         match torrents with
         | [] => ret tt
         | _ => manage_torrents torrents false
         end ;;;
         try_except (os_remove (state_file args))
           (fun e => if is_OSError (exn_kind e) then ret tt else reraise e))
      (add_events w [OpenRead (state_file args)]).
Proof.
  intros Hload. unfold resume_action.
  erewrite bind_Ok; [reflexivity|].
  rewrite load_torrent_state_run in Hload |- *. unfold value_of in Hload.
  cbn [fst] in Hload. by rewrite Hload.
Qed.

(** X19.  A resume run loads the state before it turns to the client.
    When the load fails, for a missing file as for any other reason, the
    run ends with exit code [1] and the error of the load, having only
    tried to read the state file: no connection is attempted. *)
Theorem resume_load_failure cl w e :
  cl_action cl = resume ->
  provided_params (parse_args cl) = [] ->
  value_of (load (state_file (parse_args cl)) w) = Raise e ->
  run_try (parse_args cl) w
  = (Raise e, add_events w [OpenRead (state_file (parse_args cl))])
  /\ run_main cl w
     = (1, add_events w [OpenRead (state_file (parse_args cl))]).
Proof.
  intros Hact Hvalid Hload.
  assert (run_try (parse_args cl) w
          = (Raise e, add_events w [OpenRead (state_file (parse_args cl))]))
    as Htry.
  { rewrite (main_try_resume (parse_args cl) w Hact Hvalid).
    unfold resume_action. erewrite bind_Raise; [reflexivity|].
    rewrite load_torrent_state_run in Hload |- *. unfold value_of in Hload.
    cbn [fst] in Hload. by rewrite Hload. }
  split; [exact Htry|]. rewrite main_of_try. by rewrite Htry.
Qed.

(** X20.  When the client cannot be built a resume run ends with exit
    code [1] and a [RuntimeError] carrying the text of the failure.  The
    state file has been read and is still there, so the run can be
    repeated. *)
Theorem resume_connection_failure cl w saved_state e :
  cl_action cl = resume ->
  provided_params (parse_args cl) = [] ->
  value_of (load (state_file (parse_args cl)) w) = Ok saved_state ->
  connect_error (server w) = Some e ->
  run_try (parse_args cl) w
  = (Raise (Exn RuntimeError ("Failed to connect to qBittorrent: " ++ exn_msg e)),
     add_events w [OpenRead (state_file (parse_args cl));
                   Connect (host (parse_args cl)) (user (parse_args cl))
                     (password (parse_args cl))])
  /\ run_main cl w
     = (1, add_events w [OpenRead (state_file (parse_args cl));
                         Connect (host (parse_args cl)) (user (parse_args cl))
                           (password (parse_args cl))])
  /\ is_Some (fs (snd (run_main cl w)) !! state_file (parse_args cl)).
Proof.
  intros Hact Hvalid Hload Hconn.
  assert (run_try (parse_args cl) w
          = (Raise (Exn RuntimeError
                      ("Failed to connect to qBittorrent: " ++ exn_msg e)),
             add_events w [OpenRead (state_file (parse_args cl));
                           Connect (host (parse_args cl)) (user (parse_args cl))
                             (password (parse_args cl))])) as Htry.
  { rewrite (main_try_resume (parse_args cl) w Hact Hvalid).
    rewrite (resume_action_loaded _ _ _ Hload).
    erewrite bind_Raise; [reflexivity|].
    unfold try_except. rewrite Client_run. cbn [server add_events].
    rewrite Hconn. unfold raise. by rewrite add_events_app. }
  split; [exact Htry|].
  rewrite main_of_try, Htry. split; [done|]. cbn [snd fs add_events].
  rewrite load_torrent_state_run in Hload. unfold value_of in Hload.
  cbn [fst] in Hload.
  by destruct (fs w !! state_file (parse_args cl)) as [[text|d|]|].
Qed.

(** X21.  When a resume of the batch fails, the resume run ends with exit
    code [1] and that failure: the torrents before it in the batch have
    been resumed, the ones after it have not been tried, and the state
    file has not been removed, so the run can be repeated. *)
Theorem resume_call_failure cl w saved_state items snapshot pre t post e :
  cl_action cl = resume ->
  provided_params (parse_args cl) = [] ->
  value_of (load (state_file (parse_args cl)) w) = Ok saved_state ->
  py_getitem saved_state "torrent_hashes" = Ok (JArr items) ->
  connect_error (server w) = None ->
  torrents_info (server w) None = Ok snapshot ->
  List.filter (fun u => existsb (str_eq_json (hash u)) items) snapshot
  = (pre ++ t :: post)%list ->
  Forall (fun u => resume_error (server w) (hash u) = None) pre ->
  resume_error (server w) (hash t) = Some e ->
  exists w',
    run_try (parse_args cl) w = (Raise e, w')
    /\ run_main cl w = (1, w')
    /\ trace w'
       = (trace w
          ++ [OpenRead (state_file (parse_args cl));
              Connect (host (parse_args cl)) (user (parse_args cl))
                (password (parse_args cl));
              TorrentsInfo None]
          ++ resume_calls (pre ++ [t]))%list
    /\ fs w' = fs w
    /\ is_Some (fs w' !! state_file (parse_args cl))
    /\ paused w' = paused w ∖ hashes_of pre.
Proof.
  intros Hact Hvalid Hload Hget Hconn Hinfo Hbatch Hpre Ht.
  assert (run_try (parse_args cl) w
          = (Raise e,
             with_paused
               (add_events w
                  ([OpenRead (state_file (parse_args cl));
                    Connect (host (parse_args cl)) (user (parse_args cl))
                      (password (parse_args cl));
                    TorrentsInfo None]
                   ++ resume_calls (pre ++ [t])))
               (paused w ∖ hashes_of pre))) as Htry.
  { rewrite (main_try_resume (parse_args cl) w Hact Hvalid).
    rewrite (resume_action_loaded _ _ _ Hload).
    erewrite bind_Ok;
      [|apply try_except_Ok; by rewrite Client_run; cbn [server add_events];
                                rewrite Hconn].
    erewrite bind_Ok;
      [|by rewrite client_torrents_info_run; cbn [server add_events];
           rewrite Hinfo].
    erewrite bind_Ok; [|by apply saved_torrents_run].
    rewrite Hbatch.
    erewrite bind_Raise; [reflexivity|].
    destruct (pre ++ t :: post)%list as [|x xs] eqn:Hsplit.
    { by destruct pre. }
    rewrite <- Hsplit.
    rewrite (manage_torrents_resume_fails pre t post e) by done.
    f_equal. apply world_eq;
      cbn [fs server time paused trace with_paused add_events];
      try reflexivity.
    repeat rewrite <- app_assoc. reflexivity. }
  eexists. split; [exact Htry|]. split.
  { rewrite main_of_try. by rewrite Htry. }
  split; [reflexivity|]. split; [reflexivity|]. split; [|reflexivity].
  cbn [fs with_paused add_events].
  rewrite load_torrent_state_run in Hload. unfold value_of in Hload.
  cbn [fst] in Hload.
  by destruct (fs w !! state_file (parse_args cl)) as [[text|d|]|].
Qed.









Lemma saved_torrents_raise saved_state v t rest e w :
  py_getitem saved_state "torrent_hashes" = Ok v ->
  py_in (hash t) v = Raise e ->
  saved_torrents saved_state (t :: rest) w = (Raise e, w).
Proof.
  intros Hget Hin. cbn [saved_torrents]. unfold bind, lift.
  by rewrite Hget, Hin.
Qed.

(** X24.  The load does not check what [torrent_hashes] holds.  When it
    is [null], a boolean or a number and the client lists at least one
    torrent, the resume run fails on the membership test with a
    [TypeError] and exit code [1], after the connection and the listing:
    no torrent is resumed and the state file is kept. *)
Theorem resume_scalar_torrent_hashes cl w saved_state v t snapshot :
  cl_action cl = resume ->
  provided_params (parse_args cl) = [] ->
  value_of (load (state_file (parse_args cl)) w) = Ok saved_state ->
  py_getitem saved_state "torrent_hashes" = Ok v ->
  v = JNull \/ (exists b, v = JBool b) \/ (exists n, v = JNum n) ->
  connect_error (server w) = None ->
  torrents_info (server w) None = Ok (t :: snapshot) ->
  exists e,
    run_try (parse_args cl) w
    = (Raise e,
       add_events w [OpenRead (state_file (parse_args cl));
                     Connect (host (parse_args cl)) (user (parse_args cl))
                       (password (parse_args cl));
                     TorrentsInfo None])
    /\ exn_kind e = TypeError
    /\ run_main cl w
       = (1, add_events w [OpenRead (state_file (parse_args cl));
                           Connect (host (parse_args cl)) (user (parse_args cl))
                             (password (parse_args cl));
                           TorrentsInfo None]).
Proof.
  intros Hact Hvalid Hload Hget Hv Hconn Hinfo.
  assert (exists e, py_in (hash t) v = Raise e /\ exn_kind e = TypeError)
    as (e & Hin & Hkind).
  { destruct Hv as [->|[[b ->]|[n ->]]]; by eexists. }
  exists e.
  assert (run_try (parse_args cl) w
          = (Raise e,
             add_events w [OpenRead (state_file (parse_args cl));
                           Connect (host (parse_args cl)) (user (parse_args cl))
                             (password (parse_args cl));
                           TorrentsInfo None])) as Htry.
  { rewrite (main_try_resume (parse_args cl) w Hact Hvalid).
    rewrite (resume_action_loaded _ _ _ Hload).
    erewrite bind_Ok;
      [|apply try_except_Ok; by rewrite Client_run; cbn [server add_events];
                                rewrite Hconn].
    erewrite bind_Ok;
      [|by rewrite client_torrents_info_run; cbn [server add_events];
           rewrite Hinfo].
    erewrite bind_Raise; [|by apply (saved_torrents_raise _ v)].
    by rewrite !add_events_app. }
  split; [exact Htry|]. split; [exact Hkind|].
  rewrite main_of_try. by rewrite Htry.
Qed.

End Runs.

(** ** The further properties on the sample data *)

Lemma validate_args_passes_iff_witness :
  validate_args (parse_args (Sample.command resume)) Sample.start
  = (Ok tt, Sample.start)
  /\ exists e,
       value_of (validate_args
                   (parse_args (Sample.with_days (Sample.command resume)
                                  (Some 1) None))
                   Sample.start) = Raise e
       /\ exn_kind e = ValueError.
Proof.
  split.
  - destruct (validate_args_passes_iff (parse_args (Sample.command resume))
                Sample.start) as [[_ Hpass] _].
    apply Hpass. right. repeat split; reflexivity.
  - destruct (validate_args_passes_iff
                (parse_args (Sample.with_days (Sample.command resume)
                               (Some 1) None))
                Sample.start) as (_ & _ & Hraise).
    eexists. split; [reflexivity|]. exact (proj1 (Hraise _ eq_refl)).
Defined.

Lemma cache_path_under_mount_witness :
  cache_path "/mnt/cache" Sample.one = "/mnt/cache/downloads/one"
  /\ os_path_join "/mnt/cache" "/downloads/one" = "/downloads/one".
Proof.
  destruct (cache_path_under_mount "/mnt/cache" Sample.one)
    as (Hpath & _ & Hjoin & _).
  split; [rewrite Hpath; reflexivity|apply Hjoin].
Defined.

Lemma filter_torrents_idempotent_witness :
  value_of (filter_torrents [Sample.one] Sample.window_from Sample.window_to
              (Some "/mnt/cache") Sample.start) = Ok [Sample.one].
Proof.
  apply (filter_torrents_idempotent Sample.torrents Sample.window_from
           Sample.window_to (Some "/mnt/cache") Sample.start [Sample.one]).
  reflexivity.
Defined.

Lemma filter_torrents_window_monotone_witness :
  exists out out',
    value_of (filter_torrents Sample.torrents Sample.window_from
                Sample.window_to (Some "/mnt/cache") Sample.start) = Ok out
    /\ value_of (filter_torrents Sample.torrents Sample.window_from
                   (timestamp_days_ago Sample.wall_clock 4)
                   (Some "/mnt/cache") Sample.start) = Ok out'
    /\ out `sublist_of` out'.
Proof.
  apply (filter_torrents_window_monotone Sample.torrents Sample.window_from
           Sample.window_to Sample.window_from
           (timestamp_days_ago Sample.wall_clock 4) (Some "/mnt/cache")
           Sample.start).
  - vm_compute. discriminate.
  - vm_compute. discriminate.
Defined.

Lemma filter_torrents_only_stats_witness :
  world_of (filter_torrents Sample.torrents Sample.window_from
              Sample.window_to (Some "/mnt/cache") Sample.start)
  = add_events Sample.start [Stat "/mnt/cache/downloads/one"].
Proof.
  destruct (filter_torrents_only_stats Sample.torrents Sample.window_from
              Sample.window_to (Some "/mnt/cache") Sample.start)
    as (stats & Hworld & _ & _ & Hstats & _).
  rewrite Hworld, (Hstats "/mnt/cache" eq_refl); [reflexivity|discriminate].
Defined.

Lemma filter_torrents_ignores_after_older_witness :
  filter_torrents ([Sample.one] ++ Sample.three :: [Sample.five])
    Sample.window_from Sample.window_to (Some "/mnt/cache") Sample.start
  = filter_torrents [Sample.one] Sample.window_from Sample.window_to
      (Some "/mnt/cache") Sample.start.
Proof.
  apply (filter_torrents_ignores_after_older [Sample.one] Sample.three
           [Sample.five]).
  reflexivity.
Defined.


Lemma save_checks_directory_first_witness :
  save_torrent_state JsonText.dumps id [Sample.one] Sample.missing_path
    Sample.start
  = (Raise (Exn RuntimeError
              "Failed to save state file: Directory does not exist: /nowhere"),
     add_events Sample.start [Stat "/nowhere"])
  /\ save_torrent_state JsonText.dumps id [Sample.one] Sample.readonly_path
       Sample.readonly_world
     = (Raise (Exn RuntimeError
                 "Failed to save state file: Directory is not writable: /readonly"),
        add_events Sample.readonly_world [Stat "/readonly"; Access "/readonly"]).
Proof.
  split.
  - destruct (save_checks_directory_first JsonText.dumps id [Sample.one]
                Sample.missing_path Sample.start) as [Hmissing _].
    apply Hmissing. reflexivity.
  - destruct (save_checks_directory_first JsonText.dumps id [Sample.one]
                Sample.readonly_path Sample.readonly_world) as [_ Hreadonly].
    apply Hreadonly; reflexivity.
Defined.


Lemma load_failure_kinds_witness :
  exists e,
    value_of (load_torrent_state JsonText.loads Sample.state_path Sample.start)
    = Raise e
    /\ exn_kind e = RuntimeError.
Proof.
  destruct (load_failure_kinds JsonText.loads Sample.state_path Sample.start)
    as (_ & _ & Hfail).
  apply Hfail. left. reflexivity.
Defined.

Lemma load_scalar_raises_TypeError_witness :
  exists e,
    load_torrent_state JsonText.loads Sample.state_path Sample.null_world
    = (Raise e, add_events Sample.null_world [OpenRead Sample.state_path])
    /\ exn_kind e = TypeError.
Proof.
  apply (load_scalar_raises_TypeError JsonText.loads Sample.state_path "null"
           JNull Sample.null_world).
  - reflexivity.
  - reflexivity.
  - left. reflexivity.
Defined.

Lemma load_object_iff_witness :
  value_of (load_torrent_state JsonText.loads Sample.state_path
              Sample.saved_world)
  = Ok (state_of [Sample.one; Sample.gone] (now_isoformat Sample.wall_clock))
  /\ value_of (load_torrent_state JsonText.loads Sample.state_path
                 Sample.no_timestamp_world)
     = Raise (Exn ValueError "State file is missing required fields").
Proof.
  split.
  - destruct (load_object_iff JsonText.loads Sample.state_path
                (JsonText.dumps (state_of [Sample.one; Sample.gone]
                                   (now_isoformat Sample.wall_clock)))
                [("torrent_hashes", JArr [JStr "H1"; JStr "H9"]);
                 ("timestamp", JStr (now_isoformat Sample.wall_clock));
                 ("version", JStr "1.0")]
                Sample.saved_world) as [Hok _].
    + reflexivity.
    + vm_compute. reflexivity.
    + apply Hok. split; eexists; reflexivity.
  - destruct (load_object_iff JsonText.loads Sample.state_path
                (JsonText.dumps Sample.no_timestamp)
                [("torrent_hashes", JArr [JStr "H1"])]
                Sample.no_timestamp_world) as [_ Hmissing].
    + reflexivity.
    + vm_compute. reflexivity.
    + apply Hmissing. right. reflexivity.
Defined.


Lemma saved_torrents_by_membership_witness :
  exists batch,
    saved_torrents
      (state_of [Sample.one; Sample.gone] (now_isoformat Sample.wall_clock))
      Sample.torrents Sample.saved_world = (Ok batch, Sample.saved_world)
    /\ batch `sublist_of` Sample.torrents
    /\ (forall t, t ∈ batch
                  <-> t ∈ Sample.torrents
                      /\ JStr (hash t) ∈ [JStr "H1"; JStr "H9"]).
Proof.
  destruct (saved_torrents_by_membership
              (state_of [Sample.one; Sample.gone]
                 (now_isoformat Sample.wall_clock))
              [JStr "H1"; JStr "H9"] Sample.torrents Sample.saved_world)
    as (batch & Hrun & Hsub & Hmem & _).
  - reflexivity.
  - exists batch. split; [exact Hrun|]. split; [exact Hsub|exact Hmem].
Defined.

Lemma pause_nothing_matched_witness :
  exists stats,
    main JsonText.dumps JsonText.loads id
      (Sample.with_days (Sample.command pause) (Some 0) (Some 0)) Sample.start
    = (0, add_events Sample.start
            ([Connect "localhost:8080" "admin" "adminadmin";
              TorrentsInfo (Some st_completed)] ++ stats))
    /\ Forall (fun ev => exists path, ev = Stat path) stats.
Proof.
  apply (pause_nothing_matched JsonText.dumps JsonText.loads id
           (Sample.with_days (Sample.command pause) (Some 0) (Some 0))
           Sample.start Sample.torrents).
  - reflexivity.
  - vm_compute. discriminate.
  - reflexivity.
  - reflexivity.
  - reflexivity.
Defined.


Lemma pause_run_save_failure_witness :
  exists w',
    main JsonText.dumps JsonText.loads id
      (Sample.with_state_file
         (Sample.with_days (Sample.command pause) (Some 0) (Some 4))
         Sample.readonly_path)
      Sample.readonly_world
    = (1, w')
    /\ fs w' = Sample.readonly_disk
    /\ paused w' = hashes_of [Sample.one; Sample.three] ∪ ∅.
Proof.
  destruct (pause_run_save_failure JsonText.dumps JsonText.loads id
              (Sample.with_state_file
                 (Sample.with_days (Sample.command pause) (Some 0) (Some 4))
                 Sample.readonly_path)
              Sample.readonly_world Sample.torrents [Sample.one; Sample.three])
    as (w' & e & Hmain & _ & _ & Hfs & Hpaused).
  - reflexivity.
  - vm_compute. discriminate.
  - reflexivity.
  - reflexivity.
  - reflexivity.
  - discriminate.
  - repeat constructor.
  - right. left. reflexivity.
  - exists w'. split; [exact Hmain|]. split; [exact Hfs|exact Hpaused].
Defined.

Lemma pause_connection_failure_witness :
  main JsonText.dumps JsonText.loads id (Sample.command pause)
    (Sample.with_server Sample.start Sample.locked_out)
  = (1, add_events (Sample.with_server Sample.start Sample.locked_out)
          [Connect "localhost:8080" "admin" "adminadmin"])
  /\ value_of (main_try JsonText.dumps JsonText.loads id
                 (parse_args (Sample.command pause))
                 (Sample.with_server Sample.start Sample.locked_out))
     = Raise (Exn RuntimeError
                "qBittorrent Error: Failed to login. Invalid username/password.").
Proof.
  apply (pause_connection_failure JsonText.dumps JsonText.loads id
           (Sample.command pause)
           (Sample.with_server Sample.start Sample.locked_out)
           (Exn LoginFailed "Forbidden")).
  - reflexivity.
  - vm_compute. discriminate.
  - reflexivity.
Defined.

Lemma resume_load_failure_witness :
  main JsonText.dumps JsonText.loads id (Sample.command resume) Sample.start
  = (1, add_events Sample.start [OpenRead Sample.state_path]).
Proof.
  destruct (resume_load_failure JsonText.dumps JsonText.loads id
              (Sample.command resume) Sample.start
              (Exn RuntimeError
                 ("No state file found at " ++ Sample.state_path
                  ++ ". Did you run with 'pause' first?")))
    as [_ Hmain].
  - reflexivity.
  - reflexivity.
  - reflexivity.
  - exact Hmain.
Defined.

Lemma resume_connection_failure_witness :
  main JsonText.dumps JsonText.loads id (Sample.command resume)
    (Sample.with_server Sample.saved_world Sample.locked_out)
  = (1, add_events (Sample.with_server Sample.saved_world Sample.locked_out)
          [OpenRead Sample.state_path;
           Connect "localhost:8080" "admin" "adminadmin"]).
Proof.
  destruct (resume_connection_failure JsonText.dumps JsonText.loads id
              (Sample.command resume)
              (Sample.with_server Sample.saved_world Sample.locked_out)
              (state_of [Sample.one; Sample.gone]
                 (now_isoformat Sample.wall_clock))
              (Exn LoginFailed "Forbidden"))
    as (_ & Hmain & _).
  - reflexivity.
  - reflexivity.
  - vm_compute. reflexivity.
  - reflexivity.
  - exact Hmain.
Defined.

Lemma resume_call_failure_witness :
  exists w',
    main JsonText.dumps JsonText.loads id (Sample.command resume)
      (Sample.with_server Sample.saved_world Sample.sticky) = (1, w')
    /\ fs w' = Sample.saved_disk
    /\ paused w' = {[ "H1"; "H9" ]} ∖ hashes_of [].
Proof.
  destruct (resume_call_failure JsonText.dumps JsonText.loads id
              (Sample.command resume)
              (Sample.with_server Sample.saved_world Sample.sticky)
              (state_of [Sample.one; Sample.gone]
                 (now_isoformat Sample.wall_clock))
              [JStr "H1"; JStr "H9"] Sample.torrents [] Sample.one []
              (Exn OtherException "Conflict"))
    as (w' & _ & Hmain & _ & Hfs & _ & Hpaused).
  - reflexivity.
  - reflexivity.
  - vm_compute. reflexivity.
  - reflexivity.
  - reflexivity.
  - reflexivity.
  - reflexivity.
  - constructor.
  - reflexivity.
  - exists w'. split; [exact Hmain|]. split; [exact Hfs|exact Hpaused].
Defined.



Lemma resume_scalar_torrent_hashes_witness :
  main JsonText.dumps JsonText.loads id (Sample.command resume)
    Sample.null_hashes_world
  = (1, add_events Sample.null_hashes_world
          [OpenRead Sample.state_path;
           Connect "localhost:8080" "admin" "adminadmin";
           TorrentsInfo None]).
Proof.
  destruct (resume_scalar_torrent_hashes JsonText.dumps JsonText.loads id
              (Sample.command resume) Sample.null_hashes_world
              Sample.null_hashes JNull Sample.one
              [Sample.three; Sample.five])
    as (e & _ & _ & Hmain).
  - reflexivity.
  - reflexivity.
  - vm_compute. reflexivity.
  - reflexivity.
  - left. reflexivity.
  - reflexivity.
  - reflexivity.
  - exact Hmain.
Defined.
